(** * API gateway of the shopping-list microservices: circuit breaker,
      proxy dispatcher and aggregate endpoints

    Shallow embedding of [api-gateway/server.js] (class [APIGateway]).

    - [this.circuitBreakers] (a JS [Map] from service name to a mutable
      breaker object) is a [gmap string breaker]; mutating the object that
      the map holds is an insert under the same key.
    - [Date.now()] is an explicit integer argument (milliseconds).
    - Handlers are functions from the gateway state to the new state, the
      response written to [res] (if any) and the trace of discovery and
      outbound HTTP events, executed one handler at a time.
    - The network is an oracle from the outbound request to the reply of
      the target; axios settles the promise from the reply's status. *)

From stdpp Require Import gmap strings list.
From Stdlib Require Import ZArith Lia.

Local Open Scope string_scope.
Local Open Scope Z_scope.
#[local] Set Warnings "-register-all".

(** ** JavaScript values carried in request and response bodies *)

Module Js.

Inductive value : Type :=
  | Undefined
  | Null
  | Bool (b : bool)
  | Num (n : Z)
  | Str (s : string)
  | Arr (items : list value)
  | Obj (fields : list (string * value)).

(** Own property of an object literal, first binding of the key. *)
Fixpoint field (k : string) (fs : list (string * value)) : value :=
  match fs with
  | [] => Undefined
  | (k', v) :: fs' => if String.eqb k k' then v else field k fs'
  end.

(** [v.k] for the keys read by the gateway ([message], [data]).  Reading a
    property of [null] or [undefined] throws a TypeError: [None].  Strings,
    numbers, booleans and arrays have no such own property. *)
Definition get_prop (v : value) (k : string) : option value :=
  match v with
  | Undefined | Null => None
  | Obj fs => Some (field k fs)
  | _ => Some Undefined
  end.

(** [!!s] for a string-or-missing value such as [req.header(..)]. *)
Definition truthy (h : option string) : bool :=
  match h with
  | Some s => negb (String.eqb s "")
  | None => false
  end.

(** [s.replace(pat, rep)] with a string pattern: the first occurrence only.
    The replacement is taken literally (the base paths bound in
    [setupRoutes] contain no [$]). *)
Fixpoint strip_prefix (pat s : string) : option string :=
  match pat, s with
  | EmptyString, _ => Some s
  | String a pat', String b s' =>
      if Ascii.eqb a b then strip_prefix pat' s' else None
  | String _ _, EmptyString => None
  end.

Fixpoint replace (pat rep s : string) : string :=
  match strip_prefix pat s with
  | Some rest => rep +:+ rest
  | None =>
      match s with
      | EmptyString => EmptyString
      | String c s' => String c (replace pat rep s')
      end
  end.

(** [v == null]: reading any property of such a value throws. *)
Definition nullish (v : value) : bool :=
  match v with
  | Undefined | Null => true
  | _ => false
  end.

(** [!!v] for a body value. *)
Definition truthy_value (v : value) : bool :=
  match v with
  | Undefined | Null => false
  | Bool b => b
  | Num n => negb (n =? 0)
  | Str s => negb (String.eqb s "")
  | Arr _ | Obj _ => true
  end.

(** [s.includes(pat)]. *)
Fixpoint includes (pat s : string) : bool :=
  match strip_prefix pat s with
  | Some _ => true
  | None =>
      match s with
      | EmptyString => false
      | String _ s' => includes pat s'
      end
  end.

(** [const { k: _, ...rest } = obj]: the other own properties, in order. *)
Fixpoint omit (k : string) (fs : list (string * value)) : list (string * value) :=
  match fs with
  | [] => []
  | (k', v) :: fs' => if String.eqb k k' then omit k fs' else (k', v) :: omit k fs'
  end.

(** The own properties of a value, none for a primitive or an array. *)
Definition own_fields (v : value) : list (string * value) :=
  match v with
  | Obj fs => fs
  | _ => []
  end.

(** [a === b] for values that come from different JSON documents:
    primitives are compared by value, two arrays or objects are never the
    same reference. *)
Definition strict_eq (a b : value) : bool :=
  match a, b with
  | Undefined, Undefined => true
  | Null, Null => true
  | Bool x, Bool y => Bool.eqb x y
  | Num x, Num y => (x =? y)%Z
  | Str x, Str y => String.eqb x y
  | _, _ => false
  end.

End Js.

(** ** Circuit breaker table *)

(** [{ failures, isOpen, lastFailure }]; [lastFailure] starts as [null]. *)
Record breaker : Type := Breaker {
  failures : Z;
  isOpen : bool;
  lastFailure : option Z
}.

Definition openDuration : Z := 30000.
Definition failureThreshold : Z := 3.

(** [ToNumber] of [lastFailure] in [Date.now() - breaker.lastFailure]:
    [null] converts to [0]. *)
Definition lastFailureNum (b : breaker) : Z :=
  match lastFailure b with
  | Some t => t
  | None => 0
  end.

(** [isCircuitOpen(serviceName)] at [Date.now() = now]: the answer and the
    table afterwards (the half-open branch clears [isOpen]). *)
Definition isCircuitOpen (now : Z) (serviceName : string)
    (cb : gmap string breaker) : bool * gmap string breaker :=
  match cb !! serviceName with
  | None => (false, cb)
  | Some b =>
      if isOpen b && (openDuration <? now - lastFailureNum b)
      then (false, <[serviceName := Breaker (failures b) false (lastFailure b)]> cb)
      else (isOpen b, cb)
  end.

(** [recordFailure(serviceName)] at [Date.now() = now]. *)
Definition recordFailure (now : Z) (serviceName : string)
    (cb : gmap string breaker) : gmap string breaker :=
  let b := match cb !! serviceName with
           | Some b => b
           | None => Breaker 0 false None
           end in
  let f := failures b + 1 in
  <[serviceName := Breaker f (if failureThreshold <=? f then true else isOpen b) (Some now)]> cb.

(** [resetCircuitBreaker(serviceName)]. *)
Definition resetCircuitBreaker (serviceName : string)
    (cb : gmap string breaker) : gmap string breaker :=
  match cb !! serviceName with
  | Some b => <[serviceName := Breaker 0 false (lastFailure b)]> cb
  | None => cb
  end.

(** Sequences of breaker operations, as issued by the request handlers. *)
Inductive op : Type :=
  | OpCheck (now : Z) (serviceName : string)
  | OpFail (now : Z) (serviceName : string)
  | OpReset (serviceName : string).

Definition step (cb : gmap string breaker) (o : op) : gmap string breaker :=
  match o with
  | OpCheck now n => snd (isCircuitOpen now n cb)
  | OpFail now n => recordFailure now n cb
  | OpReset n => resetCircuitBreaker n cb
  end.

Definition run (cb : gmap string breaker) (ops : list op) : gmap string breaker :=
  foldl step cb ops.

(** The table of a freshly constructed gateway: [new Map()]. *)
Definition initial : gmap string breaker := ∅.

Definition reachable (cb : gmap string breaker) : Prop :=
  ∃ ops, cb = run initial ops.

Definition is_reset_of (n : string) (o : op) : bool :=
  match o with
  | OpReset n' => String.eqb n n'
  | _ => false
  end.

Definition is_fail_of (n : string) (o : op) : bool :=
  match o with
  | OpFail _ n' => String.eqb n n'
  | _ => false
  end.

Definition count_fail (n : string) (ops : list op) : nat :=
  length (filter (λ o, is_fail_of n o = true) ops).

Definition no_reset (n : string) (ops : list op) : Prop :=
  Forall (λ o, is_reset_of n o = false) ops.

(** Answers of a run of checks on one target, and the table afterwards. *)
Fixpoint checks (n : string) (times : list Z) (cb : gmap string breaker)
    : list bool * gmap string breaker :=
  match times with
  | [] => ([], cb)
  | t :: times' =>
      let '(r, cb1) := isCircuitOpen t n cb in
      let '(rs, cb2) := checks n times' cb1 in
      (r :: rs, cb2)
  end.

(** Failure counter of a target, [0] while it has no breaker object. *)
Definition fails_of (cb : gmap string breaker) (n : string) : Z :=
  match cb !! n with
  | Some b => failures b
  | None => 0
  end.

(** What every breaker object of a running gateway satisfies. *)
Definition wf (b : breaker) : Prop :=
  0 ≤ failures b ∧ (isOpen b = true → failureThreshold ≤ failures b).

Definition table_wf (cb : gmap string breaker) : Prop :=
  map_Forall (λ _ b, wf b) cb.

Definition open_in (cb : gmap string breaker) (n : string) : Prop :=
  ∃ b, cb !! n = Some b ∧ isOpen b = true.

(** The counter a target should show after a history: the number of its
    failures since its last reset. *)
Definition count_step (n : string) (acc : Z) (o : op) : Z :=
  match o with
  | OpFail _ n' => if String.eqb n n' then acc + 1 else acc
  | OpReset n' => if String.eqb n n' then 0 else acc
  | OpCheck _ _ => acc
  end.

Definition fails_since_reset (n : string) (ops : list op) : Z :=
  foldl (count_step n) 0 ops.

(** The clock of the most recent failure of a target in a history. *)
Definition last_fail_step (n : string) (acc : option Z) (o : op) : option Z :=
  match o with
  | OpFail t n' => if String.eqb n n' then Some t else acc
  | _ => acc
  end.

Definition last_fail (n : string) (ops : list op) : option Z :=
  foldl (last_fail_step n) None ops.

(** ** Service registry *)

Inductive service_status : Type := unknown | healthy | unhealthy.

Record ServiceRecord : Type := {
  url : string;
  status : service_status;
  registeredAt : Z;
  lastHealthCheck : Z;
  lastSeenHealthy : Z
}.

(** Modelled from the spec: [shared/serviceRegistry.js] is required by the
    gateway but is not among the sources.  [discover(name)] returns the
    record registered under [name] whatever its health status, and fails
    with NotRegistered (a thrown error, here [None]) if the name was never
    registered.  The callers below read [service.url] right after the call
    and inside the same [try] or promise, so a [discover] that returned
    [undefined] for an unknown name would fail them at the same point. *)
Definition discover (reg : gmap string ServiceRecord) (name : string)
    : option ServiceRecord :=
  reg !! name.

(** ** HTTP requests, replies and axios *)

(** Outbound request configuration handed to axios.  A header whose value
    is [undefined] is written [None]. *)
Record request : Type := Request {
  method : string;
  req_url : string;
  data : Js.value;
  headers : list (string * option string)
}.

(** What the target's side of the wire does with a request: a status and a
    body, or nothing at all (connection refused, timeout). *)
Definition network : Type := request → option (Z * Js.value).

(** A settled axios promise: resolved with the response, or rejected with
    an error whose [response] is present only if the target replied. *)
Inductive settled : Type :=
  | Resolved (status : Z) (body : Js.value)
  | Rejected (response : option (Z * Js.value)).

(** axios' default [validateStatus]. *)
Definition validateStatus (s : Z) : bool := (200 <=? s) && (s <? 300).

Definition axios (net : network) (rq : request) : settled :=
  match net rq with
  | None => Rejected None
  | Some (s, d) => if validateStatus s then Resolved s d else Rejected (Some (s, d))
  end.

(** The parts of the Express request object read by the handlers. *)
Record incoming : Type := Incoming {
  in_method : string;
  originalUrl : string;
  in_body : Js.value;
  header_Authorization : option string;
  query_q : option string
}.

(** [res.status(s).json(b)]; [res.json(b)] leaves the status at 200. *)
Record response : Type := Response {
  res_status : Z;
  res_body : Js.value
}.

Inductive event : Type :=
  | EvDiscover (serviceName : string)
  | EvHttp (serviceName : string) (rq : request).

(** Result of running one handler: the breaker table afterwards, the
    response sent (none if the handler's promise rejected before
    responding) and the discovery / outbound events in order. *)
Record outcome : Type := Outcome {
  breakers : gmap string breaker;
  replied : option response;
  trace : list event
}.

(** The one-character string holding a double quote. *)
Definition dquote : string := String (Ascii.ascii_of_nat 34) EmptyString.

Definition failure_body (message : Js.value) : Js.value :=
  Js.Obj [("success", Js.Bool false); ("message", message)].

(** Outbound requests sent to one target during a handler run. *)
Fixpoint requests_to (n : string) (tr : list event) : list request :=
  match tr with
  | [] => []
  | EvHttp n' rq :: tr' =>
      if String.eqb n n' then rq :: requests_to n tr' else requests_to n tr'
  | EvDiscover _ :: tr' => requests_to n tr'
  end.


(** The axios configuration built by [proxyRequest] for a discovered
    [service]: the [/api] prefix is dropped from [req.originalUrl]. *)
Definition proxied_request (service : ServiceRecord) (serviceBasePath : string)
    (req : incoming) : request :=
  let targetPath :=
    Js.replace ("/api" +:+ serviceBasePath) serviceBasePath (originalUrl req) in
  let targetUrl := url service +:+ targetPath in
  Request (in_method req) targetUrl (in_body req)
    [("Authorization", header_Authorization req)].

(** Bodies sent by the handlers. *)
Definition circuit_open_body (serviceName : string) : Js.value :=
  failure_body (Js.Str ("Serviço " +:+ serviceName +:+ " temporariamente indisponível")).

Definition unavailable_body (serviceName : string) : Js.value :=
  failure_body (Js.Str ("Serviço " +:+ serviceName +:+ " indisponível")).

Definition dashboard_body (recentLists catalogItems : Js.value) : Js.value :=
  Js.Obj [("success", Js.Bool true);
          ("data", Js.Obj [("recentLists", recentLists);
                           ("catalogItems", catalogItems)])].

Section Gateway.

Context (reg : gmap string ServiceRecord) (net : network).

(** The [catch (error)] block of [proxyRequest], entered at
    [Date.now() = now] with [error.response = resp]. *)
Definition proxy_catch (now : Z) (serviceName : string)
    (resp : option (Z * Js.value)) (tr : list event)
    (cb : gmap string breaker) : outcome :=
  let cb' := recordFailure now serviceName cb in
  match resp with
  | Some (st, d) =>
      match Js.get_prop d "message" with
      | Some m => Outcome cb' (Some (Response st (failure_body m))) tr
      | None => Outcome cb' None tr
      end
  | None =>
      Outcome cb' (Some (Response 503 (unavailable_body serviceName))) tr
  end.

(** [proxyRequest(serviceName, serviceBasePath, req, res)].  [t0] is the
    clock read by [isCircuitOpen] on entry, [t1] the clock read by
    [recordFailure] once the attempt has failed. *)
Definition proxyRequest (serviceName serviceBasePath : string) (req : incoming)
    (t0 t1 : Z) (cb : gmap string breaker) : outcome :=
  let '(open, cb0) := isCircuitOpen t0 serviceName cb in
  if open then
    Outcome cb0 (Some (Response 503 (circuit_open_body serviceName))) []
  else
    match discover reg serviceName with
    | None => proxy_catch t1 serviceName None [EvDiscover serviceName] cb0
    | Some service =>
        let rq := proxied_request service serviceBasePath req in
        let tr := [EvDiscover serviceName; EvHttp serviceName rq] in
        match axios net rq with
        | Resolved st d =>
            Outcome (resetCircuitBreaker serviceName cb0) (Some (Response st d)) tr
        | Rejected resp => proxy_catch t1 serviceName resp tr cb0
        end
    end.

(** [callService(serviceName, path, authHeader = null)]: the settled
    promise ([Resolved] carries [response.data], returned by the function)
    and the events.  No breaker is read or written here. *)
Definition callService (serviceName path : string) (authHeader : option string)
    : option Js.value * list event :=
  match discover reg serviceName with
  | None => (None, [EvDiscover serviceName])
  | Some service =>
      let hs := if Js.truthy authHeader
                then [("Authorization", authHeader)] else [] in
      let rq := Request "GET" (url service +:+ path) Js.Undefined hs in
      let tr := [EvDiscover serviceName; EvHttp serviceName rq] in
      match axios net rq with
      | Resolved _ d => (Some d, tr)
      | Rejected _ => (None, tr)
      end
  end.

(** One slot of the dashboard:
    [r.status === 'fulfilled' ? r.value.data : []]; [None] when reading
    [.data] throws. *)
Definition slot (r : option Js.value) : option Js.value :=
  match r with
  | Some v => Js.get_prop v "data"
  | None => Some (Js.Arr [])
  end.

(** [getDashboard(req, res)]. *)
Definition getDashboard (req : incoming) (cb : gmap string breaker) : outcome :=
  let authHeader := header_Authorization req in
  if negb (Js.truthy authHeader) then
    Outcome cb (Some (Response 401 (failure_body (Js.Str "Token obrigatório")))) []
  else
    let '(listsResponse, tr1) := callService "list-service" "/lists?limit=5" authHeader in
    let '(itemsResponse, tr2) := callService "item-service" "/items?limit=5" None in
    match slot listsResponse, slot itemsResponse with
    | Some recentLists, Some catalogItems =>
        Outcome cb (Some (Response 200 (dashboard_body recentLists catalogItems)))
          (tr1 ++ tr2)
    | _, _ =>
        Outcome cb
          (Some (Response 500 (failure_body (Js.Str "Erro ao montar o dashboard"))))
          (tr1 ++ tr2)
    end.

(** [globalSearch(req, res)]. *)
Definition globalSearch (req : incoming) (cb : gmap string breaker) : outcome :=
  if negb (Js.truthy (query_q req)) then
    Outcome cb
      (Some (Response 400
         (failure_body
            (Js.Str ("Parâmetro de busca " +:+ dquote +:+ "q" +:+ dquote
                     +:+ " é obrigatório"))))) []
  else
    let q := default "" (query_q req) in
    let '(itemResults, tr) := callService "item-service" ("/search?q=" +:+ q) None in
    match itemResults ≫= (λ v, Js.get_prop v "data") with
    | Some items =>
        Outcome cb
          (Some (Response 200
             (Js.Obj [("success", Js.Bool true);
                      ("data", Js.Obj [("items", items)])])))
          tr
    | None =>
        Outcome cb
          (Some (Response 500 (failure_body (Js.Str "Erro na busca global"))))
          tr
    end.

End Gateway.

(** ** Concrete deployments used in the examples below *)

Module Sample.

Definition record (u : string) : ServiceRecord :=
  {| url := u; status := healthy; registeredAt := 0;
     lastHealthCheck := 0; lastSeenHealthy := 0 |}.

(** The three services of the repository on their ports. *)
Definition registry : gmap string ServiceRecord :=
  <["user-service" := record "http://127.0.0.1:3001"]>
  (<["list-service" := record "http://127.0.0.1:3002"]>
  (<["item-service" := record "http://127.0.0.1:3003"]> ∅)).

Definition lists : Js.value :=
  Js.Arr [Js.Obj [("id", Js.Str "l1"); ("name", Js.Str "Feira")]].

Definition items : Js.value :=
  Js.Arr [Js.Obj [("id", Js.Str "i1"); ("name", Js.Str "Arroz")]].

Definition envelope (d : Js.value) : Js.value :=
  Js.Obj [("success", Js.Bool true); ("data", d)].

(** list-service answers, item-service does not (timeout). *)
Definition net_items_down : network := λ rq,
  if String.eqb (req_url rq) "http://127.0.0.1:3002/lists?limit=5"
  then Some (200, envelope lists) else None.

(** item-service answers, list-service does not. *)
Definition net_lists_down : network := λ rq,
  if String.eqb (req_url rq) "http://127.0.0.1:3003/items?limit=5"
  then Some (200, envelope items) else None.

(** list-service answers 200 with the JSON body [null], item-service does
    not answer. *)
Definition net_null_lists : network := λ rq,
  if String.eqb (req_url rq) "http://127.0.0.1:3002/lists?limit=5"
  then Some (200, Js.Null) else None.

(** Every target answers 404 with a body that is not the gateway's
    failure envelope. *)
Definition not_found : Js.value := Js.Obj [("error", Js.Str "Not Found")].
Definition net_404 : network := λ _, Some (404, not_found).

(** Nobody answers. *)
Definition net_down : network := λ _, None.

Definition get (path : string) (auth : option string) : incoming :=
  Incoming "GET" path Js.Undefined auth None.

(** The breaker of item-service opened by three failures at clocks 1, 2, 3. *)
Definition item_breaker_open : gmap string breaker :=
  run initial [OpFail 1 "item-service"; OpFail 2 "item-service"; OpFail 3 "item-service"].

End Sample.

(** ** Token validation between the services

    [authMiddleware] of [services/list-service/server.js] and of
    [services/item-service/server.js] (the two are the same code), and
    [validateToken] of [services/user-service/server.js], which they call
    over HTTP. *)

Module Auth.

Inductive result : Type :=
  | Denied (r : response)
  | Next (user : Js.value).

Definition token_required : response :=
  Response 401 (failure_body (Js.Str "Token obrigatório")).

Definition token_invalid : response :=
  Response 401 (failure_body (Js.Str "Token inválido")).

Definition auth_unavailable : response :=
  Response 503 (failure_body (Js.Str "Serviço de autenticação indisponível")).

(** [axios.post(`${userService.url}/auth/validate`, { token })]. *)
Definition validate_request (userService : ServiceRecord) (token : string) : request :=
  Request "POST" (url userService +:+ "/auth/validate")
    (Js.Obj [("token", Js.Str token)]) [].

(** [authMiddleware(req, res, next)]: either a response is sent or [next()]
    runs with [req.user] set; with the events. *)
Definition authMiddleware (reg : gmap string ServiceRecord) (net : network)
    (authHeader : option string) : result * list event :=
  match authHeader ≫= Js.strip_prefix "Bearer " with
  | None => (Denied token_required, [])
  | Some _ =>
      match discover reg "user-service" with
      | None => (Denied auth_unavailable, [EvDiscover "user-service"])
      | Some userService =>
          let token := Js.replace "Bearer " "" (default "" authHeader) in
          let rq := validate_request userService token in
          let tr := [EvDiscover "user-service"; EvHttp "user-service" rq] in
          match axios net rq with
          | Rejected _ => (Denied auth_unavailable, tr)
          | Resolved _ d =>
              match Js.get_prop d "success" with
              | None => (Denied auth_unavailable, tr)
              | Some ok =>
                  if Js.truthy_value ok then
                    match Js.get_prop d "data" ≫= (λ v, Js.get_prop v "user") with
                    | Some user => (Next user, tr)
                    | None => (Denied auth_unavailable, tr)
                    end
                  else (Denied token_invalid, tr)
              end
          end
      end
  end.

End Auth.

Module UserService.

(** What [usersDb.findById] resolves to.  [shared/JsonDatabase.js] is not
    among the sources: the lookup is a parameter of the handler, giving the
    stored document, nothing, or a rejection. *)
Inductive lookup : Type :=
  | Found (fields : list (string * Js.value))
  | Missing
  | Failed.

Definition user_not_found : response :=
  Response 404 (failure_body (Js.Str "Usuário do token não encontrado")).

(** [validateToken(req, res)] on [req.body].  [verify] is
    [jwt.verify(_, 'sua-chave-secreta-jwt')]: the decoded payload, or [None]
    when it throws. *)
Definition validateToken (verify : Js.value → option Js.value)
    (findById : Js.value → lookup) (body : Js.value) : response :=
  match Js.get_prop body "token" with
  | None => Auth.token_invalid
  | Some token =>
      match verify token ≫= (λ decoded, Js.get_prop decoded "id") with
      | None => Auth.token_invalid
      | Some id =>
          match findById id with
          | Failed => Auth.token_invalid
          | Missing => user_not_found
          | Found fs =>
              Response 200
                (Js.Obj [("success", Js.Bool true);
                         ("data", Js.Obj [("user", Js.Obj (Js.omit "password" fs))])])
          end
      end
  end.

(** The reply a client of the user service sees for a response. *)
Definition on_wire (r : response) : option (Z * Js.value) :=
  Some (res_status r, res_body r).

End UserService.

(** ** Profile routes of the user service

    [authMiddleware], [getUser] and [updateUser] of
    [services/user-service/server.js], as mounted on [/users/:id]. *)

Module UserRoutes.

Inductive db_event : Type :=
  | DbFind (id : Js.value)
  | DbUpdate (id : string) (updates : Js.value).

Definition access_denied : response :=
  Response 403 (failure_body (Js.Str "Acesso negado")).

Definition not_found : response :=
  Response 404 (failure_body (Js.Str "Usuário não encontrado")).

Definition profile (fs : list (string * Js.value)) : response :=
  Response 200
    (Js.Obj [("success", Js.Bool true); ("data", Js.Obj (Js.omit "password" fs))]).

(** [authMiddleware(req, res, next)]: the token is verified locally. *)
Definition authMiddleware (verify : Js.value → option Js.value)
    (authHeader : option string) : Auth.result :=
  match authHeader ≫= Js.strip_prefix "Bearer " with
  | None => Auth.Denied Auth.token_required
  | Some _ =>
      let token := Js.replace "Bearer " "" (default "" authHeader) in
      match verify (Js.Str token) with
      | Some decoded => Auth.Next decoded
      | None => Auth.Denied Auth.token_invalid
      end
  end.

(** [getUser(req, res)] with [req.user = user] and [req.params.id = id]:
    the response (none if the handler's promise rejects) and the database
    calls made. *)
Definition getUser (findById : Js.value → UserService.lookup)
    (user : Js.value) (id : string) : option response * list db_event :=
  match Js.get_prop user "id" with
  | None => (None, [])
  | Some uid =>
      if negb (Js.strict_eq uid (Js.Str id)) then (Some access_denied, [])
      else
        match findById (Js.Str id) with
        | UserService.Failed => (None, [DbFind (Js.Str id)])
        | UserService.Missing => (Some not_found, [DbFind (Js.Str id)])
        | UserService.Found fs => (Some (profile fs), [DbFind (Js.Str id)])
        end
  end.

(** [updateUser(req, res)]; [update] is [usersDb.update]. *)
Definition updateUser (update : string → Js.value → UserService.lookup)
    (user : Js.value) (id : string) (body : Js.value)
    : option response * list db_event :=
  match Js.get_prop user "id" with
  | None => (None, [])
  | Some uid =>
      if negb (Js.strict_eq uid (Js.Str id)) then (Some access_denied, [])
      else
        match Js.get_prop body "firstName", Js.get_prop body "lastName",
              Js.get_prop body "preferences" with
        | Some firstName, Some lastName, Some preferences =>
            let updates := Js.Obj [("firstName", firstName); ("lastName", lastName);
                                   ("preferences", preferences)] in
            match update id updates with
            | UserService.Failed => (None, [DbUpdate id updates])
            | UserService.Missing => (Some not_found, [DbUpdate id updates])
            | UserService.Found fs => (Some (profile fs), [DbUpdate id updates])
            end
        | _, _, _ => (None, [])
        end
  end.

(** [GET /users/:id] and [PUT /users/:id]: the middleware, then the handler. *)
Definition get_route (verify : Js.value → option Js.value)
    (findById : Js.value → UserService.lookup)
    (authHeader : option string) (id : string) : option response * list db_event :=
  match authMiddleware verify authHeader with
  | Auth.Denied r => (Some r, [])
  | Auth.Next user => getUser findById user id
  end.

Definition put_route (verify : Js.value → option Js.value)
    (update : string → Js.value → UserService.lookup)
    (authHeader : option string) (id : string) (body : Js.value)
    : option response * list db_event :=
  match authMiddleware verify authHeader with
  | Auth.Denied r => (Some r, [])
  | Auth.Next user => updateUser update user id body
  end.

End UserRoutes.

(** ** List routes of the list service

    [getListById], [updateList], [deleteList] and [getListSummary] of
    [services/list-service/server.js], run after [authMiddleware] has set
    [req.user].  The database calls are parameters ([None]: the promise
    rejects), since [shared/JsonDatabase.js] is not among the sources. *)

Module ListRoutes.

Inductive db_event : Type :=
  | DbFind (id : string)
  | DbUpdate (id : string) (updates : Js.value)
  | DbDelete (id : string).

Definition list_not_found : response :=
  Response 404 (failure_body (Js.Str "Lista não encontrada")).

Definition access_denied : response :=
  Response 403 (failure_body (Js.Str "Acesso negado")).

Definition not_found_or_denied : response :=
  Response 404 (failure_body (Js.Str "Lista não encontrada ou acesso negado")).

Definition ok (d : Js.value) : response :=
  Response 200 (Js.Obj [("success", Js.Bool true); ("data", d)]).

(** [list.userId !== req.user.id] for a truthy [list]; [None] when reading
    [req.user.id] throws. *)
Definition foreign (list user : Js.value) : option bool :=
  match Js.get_prop list "userId", Js.get_prop user "id" with
  | Some owner, Some uid => Some (negb (Js.strict_eq owner uid))
  | _, _ => None
  end.

Section Handlers.

Context (findById : string → option Js.value).

Definition getListById (user : Js.value) (id : string)
    : option response * list db_event :=
  match findById id with
  | None => (None, [DbFind id])
  | Some list =>
      if negb (Js.truthy_value list) then (Some list_not_found, [DbFind id])
      else
        match foreign list user with
        | None => (None, [DbFind id])
        | Some true => (Some access_denied, [DbFind id])
        | Some false => (Some (ok list), [DbFind id])
        end
  end.

(** The guard shared by the other handlers:
    [if (!list || list.userId !== req.user.id) return res.status(404)...];
    [inr list] when the guard lets the handler continue. *)
Definition guard (user : Js.value) (id : string)
    : (option response * list db_event) + Js.value :=
  match findById id with
  | None => inl (None, [DbFind id])
  | Some list =>
      if negb (Js.truthy_value list) then inl (Some not_found_or_denied, [DbFind id])
      else
        match foreign list user with
        | None => inl (None, [DbFind id])
        | Some true => inl (Some not_found_or_denied, [DbFind id])
        | Some false => inr list
        end
  end.

Definition updateList (update : string → Js.value → option Js.value)
    (user : Js.value) (id : string) (body : Js.value)
    : option response * list db_event :=
  match guard user id with
  | inl r => r
  | inr _ =>
      match Js.get_prop body "name", Js.get_prop body "description",
            Js.get_prop body "status" with
      | Some name, Some description, Some status =>
          let updates := Js.Obj [("name", name); ("description", description);
                                 ("status", status)] in
          match update id updates with
          | Some updatedList => (Some (ok updatedList), [DbFind id; DbUpdate id updates])
          | None => (None, [DbFind id; DbUpdate id updates])
          end
      | _, _, _ => (None, [DbFind id])
      end
  end.

Definition deleteList (delete : string → bool) (user : Js.value) (id : string)
    : option response * list db_event :=
  match guard user id with
  | inl r => r
  | inr _ =>
      if delete id then (Some (Response 204 Js.Undefined), [DbFind id; DbDelete id])
      else (None, [DbFind id; DbDelete id])
  end.

Definition getListSummary (user : Js.value) (id : string)
    : option response * list db_event :=
  match guard user id with
  | inl r => r
  | inr list =>
      match Js.get_prop list "summary" with
      | Some summary => (Some (ok summary), [DbFind id])
      | None => (None, [DbFind id])
      end
  end.

End Handlers.

Definition is_write (e : db_event) : bool :=
  match e with
  | DbFind _ => false
  | _ => true
  end.

(** The stored list [id] exists and its [userId] is strictly equal to the
    [id] of the requesting user. *)
Definition owns (findById : string → option Js.value) (user : Js.value)
    (id : string) : Prop :=
  ∃ list owner uid,
    findById id = Some list ∧ Js.truthy_value list = true
    ∧ Js.get_prop list "userId" = Some owner
    ∧ Js.get_prop user "id" = Some uid
    ∧ Js.strict_eq owner uid = true.

Definition success (r : response) : Prop :=
  200 ≤ res_status r < 300.

End ListRoutes.

Module Sample3.

Definition bob_token : Js.value := Js.Obj [("id", Js.Str "u2")].

Definition alice_list : Js.value :=
  Js.Obj [("id", Js.Str "l1"); ("userId", Js.Str "u1"); ("name", Js.Str "Feira");
          ("summary", Js.Obj [("totalItems", Js.Num 0)])].

Definition lists (id : string) : option Js.value :=
  if String.eqb id "l1" then Some alice_list else Some Js.Null.

Definition alice_user : Js.value := Js.Obj [("id", Js.Str "u1")].
Definition bob_user : Js.value := Js.Obj [("id", Js.Str "u2")].

Definition update_ok (id : string) (u : Js.value) : option Js.value := Some u.

Definition bob : list (string * Js.value) :=
  [("id", Js.Str "u2"); ("password", Js.Str "$2a$12$hash"); ("username", Js.Str "bob")].

Definition users (id : Js.value) : UserService.lookup :=
  if Js.strict_eq id (Js.Str "u2") then UserService.Found bob else UserService.Missing.

Definition user_update (id : string) (u : Js.value) : UserService.lookup :=
  UserService.Found bob.

(** The verifier accepts the token [bob] and nothing else. *)
Definition verify (t : Js.value) : option Js.value :=
  if Js.strict_eq t (Js.Str "bob") then Some bob_token else None.

End Sample3.

(** An attempt of [proxyRequest] that ends in its catch block: discovery
    fails, or axios rejects. *)
Definition attempt_fails (reg : gmap string ServiceRecord) (net : network)
    (serviceName serviceBasePath : string) (req : incoming) : Prop :=
  match discover reg serviceName with
  | None => True
  | Some service =>
      ∃ resp, axios net (proxied_request service serviceBasePath req) = Rejected resp
  end.

(** A target that puts the list-service [authMiddleware] in front of its
    routes: whenever the middleware denies the forwarded Authorization
    header, that denial is the reply. *)
Definition guarded_by_auth (reg' : gmap string ServiceRecord) (net' net : network)
    (service : ServiceRecord) (serviceBasePath : string) : Prop :=
  ∀ req r,
    fst (Auth.authMiddleware reg' net' (header_Authorization req)) = Auth.Denied r →
    net (proxied_request service serviceBasePath req) = Some (res_status r, res_body r).

Module Sample2.

Definition alice : list (string * Js.value) :=
  [("id", Js.Str "u1"); ("email", Js.Str "alice@example.com");
   ("password", Js.Str "$2a$12$hash"); ("username", Js.Str "alice")].

(** A verifier that accepts the single token [good]. *)
Definition verify (t : Js.value) : option Js.value :=
  match t with
  | Js.Str s => if String.eqb s "good"
                then Some (Js.Obj [("id", Js.Str "u1")]) else None
  | _ => None
  end.

Definition findById (id : Js.value) : UserService.lookup :=
  match id with
  | Js.Str s => if String.eqb s "u1" then UserService.Found alice
                else UserService.Missing
  | _ => UserService.Missing
  end.

(** The user service on the wire: every request is a token validation. *)
Definition user_wire : network := λ rq,
  UserService.on_wire (UserService.validateToken verify findById (data rq)).

(** A list service that answers every request through its middleware, and
    200 with an empty list when the middleware lets it pass. *)
Definition list_wire : network := λ rq,
  match headers rq with
  | [(_, h)] =>
      match fst (Auth.authMiddleware Sample.registry user_wire h) with
      | Auth.Denied r => Some (res_status r, res_body r)
      | Auth.Next _ => Some (200, Sample.envelope (Js.Arr []))
      end
  | _ => None
  end.

(** item-service answers with an empty catalogue, list-service answers. *)
Definition net_items_empty : network := λ rq,
  if String.eqb (req_url rq) "http://127.0.0.1:3002/lists?limit=5"
  then Some (200, Sample.envelope Sample.lists)
  else Some (200, Sample.envelope (Js.Arr [])).

(** Every target answers 404 with the JSON body [null]. *)
Definition net_404_null : network := λ _, Some (404, Js.Null).


Definition search (q : option string) (auth : option string) : incoming :=
  Incoming "GET" "/api/search" Js.Undefined auth q.

End Sample2.

(** * Properties of the circuit breaker *)

Section BreakerFacts.

Implicit Types (cb : gmap string breaker) (b : breaker) (n : string).

Lemma eqb_decide n n' : String.eqb n n' = bool_decide (n = n').
Proof.
  destruct (String.eqb_spec n n') as [->|Hne].
  - by rewrite bool_decide_eq_true_2.
  - by rewrite bool_decide_eq_false_2.
Qed.

Lemma isCircuitOpen_absent now n cb :
  cb !! n = None → isCircuitOpen now n cb = (false, cb).
Proof. intros H. unfold isCircuitOpen. by rewrite H. Qed.

Lemma isCircuitOpen_within now n cb b :
  cb !! n = Some b → isOpen b = true → now - lastFailureNum b ≤ openDuration →
  isCircuitOpen now n cb = (true, cb).
Proof.
  intros H Ho Ht. unfold isCircuitOpen. rewrite H, Ho. simpl.
  destruct (Z.ltb_spec openDuration (now - lastFailureNum b)); [lia | done].
Qed.

Lemma isCircuitOpen_elapsed now n cb b :
  cb !! n = Some b → isOpen b = true → openDuration < now - lastFailureNum b →
  isCircuitOpen now n cb
  = (false, <[n := Breaker (failures b) false (lastFailure b)]> cb).
Proof.
  intros H Ho Ht. unfold isCircuitOpen. rewrite H, Ho. simpl.
  destruct (Z.ltb_spec openDuration (now - lastFailureNum b)); [done | lia].
Qed.

Lemma isCircuitOpen_closed now n cb b :
  cb !! n = Some b → isOpen b = false → isCircuitOpen now n cb = (false, cb).
Proof. intros H Ho. unfold isCircuitOpen. by rewrite H, Ho. Qed.

Lemma isCircuitOpen_other now n n' cb :
  n ≠ n' → snd (isCircuitOpen now n cb) !! n' = cb !! n'.
Proof.
  intros Hne. unfold isCircuitOpen.
  destruct (cb !! n) as [b|]; [|done].
  destruct (isOpen b && _); simpl; [|done].
  by rewrite lookup_insert_ne.
Qed.

Lemma recordFailure_lookup now n cb :
  recordFailure now n cb !! n
  = Some (Breaker (fails_of cb n + 1)
            (if failureThreshold <=? fails_of cb n + 1 then true
             else match cb !! n with Some b => isOpen b | None => false end)
            (Some now)).
Proof.
  unfold recordFailure, fails_of. rewrite lookup_insert_eq.
  by destruct (cb !! n).
Qed.

Lemma recordFailure_other now n n' cb :
  n ≠ n' → recordFailure now n cb !! n' = cb !! n'.
Proof. intros Hne. unfold recordFailure. by rewrite lookup_insert_ne. Qed.

Lemma resetCircuitBreaker_other n n' cb :
  n ≠ n' → resetCircuitBreaker n cb !! n' = cb !! n'.
Proof.
  intros Hne. unfold resetCircuitBreaker.
  destruct (cb !! n); [by rewrite lookup_insert_ne | done].
Qed.

Lemma isCircuitOpen_wf now n cb : table_wf cb → table_wf (snd (isCircuitOpen now n cb)).
Proof.
  intros Hwf. unfold isCircuitOpen.
  destruct (cb !! n) as [b|] eqn:Hb; [|done].
  destruct (isOpen b && _); simpl; [|done].
  apply map_Forall_insert_2; [|done].
  destruct (Hwf n b Hb) as [H0 _]. split; simpl; [done | discriminate].
Qed.

Lemma recordFailure_wf now n cb : table_wf cb → table_wf (recordFailure now n cb).
Proof.
  intros Hwf. unfold recordFailure.
  apply map_Forall_insert_2; [|done].
  assert (Hb : wf (match cb !! n with Some b => b | None => Breaker 0 false None end)).
  { destruct (cb !! n) as [b|] eqn:Hb; [by apply (Hwf n b)|].
    split; simpl; [lia | discriminate]. }
  destruct Hb as [H0 H1]. split; simpl; [lia|].
  destruct (Z.leb_spec failureThreshold
              (failures (match cb !! n with Some b => b | None => Breaker 0 false None end) + 1));
    [done|]. intros Ho. specialize (H1 Ho). lia.
Qed.

Lemma resetCircuitBreaker_wf n cb : table_wf cb → table_wf (resetCircuitBreaker n cb).
Proof.
  intros Hwf. unfold resetCircuitBreaker.
  destruct (cb !! n) as [b|]; [|done].
  apply map_Forall_insert_2; [|done]. split; simpl; [lia | discriminate].
Qed.

Lemma step_wf cb o : table_wf cb → table_wf (step cb o).
Proof.
  destruct o; simpl;
    auto using isCircuitOpen_wf, recordFailure_wf, resetCircuitBreaker_wf.
Qed.

Lemma run_wf ops : ∀ cb, table_wf cb → table_wf (run cb ops).
Proof.
  induction ops as [|o ops IH]; intros cb Hwf; [done|].
  apply IH. by apply step_wf.
Qed.

Lemma reachable_wf cb : reachable cb → table_wf cb.
Proof. intros [ops ->]. apply run_wf. apply map_Forall_empty. Qed.

Lemma run_app cb ops1 ops2 : run cb (ops1 ++ ops2) = run (run cb ops1) ops2.
Proof. apply foldl_app. Qed.

Lemma step_fails_of n cb o :
  is_reset_of n o = false →
  fails_of (step cb o) n = fails_of cb n + (if is_fail_of n o then 1 else 0).
Proof.
  intros Hnr. destruct o as [now n'|now n'|n']; simpl in *.
  - unfold fails_of. destruct (decide (n' = n)) as [->|Hne].
    + unfold isCircuitOpen. destruct (cb !! n) as [b|] eqn:Hb; simpl.
      * destruct (isOpen b && _); simpl; [rewrite lookup_insert_eq | rewrite Hb];
          simpl; lia.
      * rewrite Hb. lia.
    + rewrite isCircuitOpen_other by done. lia.
  - rewrite eqb_decide. case_bool_decide as Hn.
    + subst n'. unfold fails_of at 1. by rewrite recordFailure_lookup.
    + unfold fails_of. rewrite recordFailure_other by done. lia.
  - rewrite eqb_decide in Hnr. case_bool_decide as Hn; [done|].
    unfold fails_of. rewrite resetCircuitBreaker_other by done. lia.
Qed.

Lemma run_fails_of n ops : ∀ cb,
  no_reset n ops →
  fails_of (run cb ops) n = fails_of cb n + Z.of_nat (count_fail n ops).
Proof.
  unfold count_fail.
  induction ops as [|o ops IH]; intros cb Hnr; simpl; [lia|].
  inversion Hnr as [|? ? Ho Hops]; subst.
  rewrite IH by done. rewrite step_fails_of by done.
  destruct (is_fail_of n o) eqn:Hf.
  - rewrite filter_cons_True by done. simpl length. lia.
  - rewrite filter_cons_False by (rewrite Hf; discriminate). lia.
Qed.

Lemma fails_of_nonneg cb n : table_wf cb → 0 ≤ fails_of cb n.
Proof.
  intros Hwf. unfold fails_of. destruct (cb !! n) as [b|] eqn:Hb; [|lia].
  by destruct (Hwf n b Hb).
Qed.

(** Once the counter has reached the threshold minus one, a failure at
    [t] opens the breaker and stamps it with [t]. *)
Lemma recordFailure_opens t n cb :
  failureThreshold - 1 ≤ fails_of cb n →
  ∃ b, recordFailure t n cb !! n = Some b ∧ isOpen b = true
       ∧ lastFailure b = Some t ∧ failureThreshold ≤ failures b.
Proof.
  intros Hf. eexists. split; [apply recordFailure_lookup|]. simpl.
  destruct (Z.leb_spec failureThreshold (fails_of cb n + 1)); [|lia].
  repeat split; lia.
Qed.

End BreakerFacts.

(** C5.  In every breaker table reachable from the freshly constructed
    gateway by any sequence of [isCircuitOpen], [recordFailure] and
    [resetCircuitBreaker] calls (on any targets, at any clock values), a
    breaker whose [isOpen] flag is set has a failure counter of at least the
    failure threshold, 3. *)
Theorem open_implies_threshold :
  ∀ (ops : list op) (n : string) (b : breaker),
    run initial ops !! n = Some b →
    isOpen b = true →
    3 ≤ failures b.
Proof.
  intros ops n b Hb Ho.
  assert (Hwf : table_wf (run initial ops)) by (apply reachable_wf; by exists ops).
  destruct (Hwf n b Hb) as [_ H]. apply H. exact Ho.
Qed.

Lemma open_implies_threshold_witness :
  ∃ b, run initial [OpFail 10 "item-service"; OpFail 20 "item-service";
                    OpCheck 25 "item-service"; OpFail 30 "item-service"]
         !! "item-service" = Some b
       ∧ isOpen b = true ∧ 3 ≤ failures b.
Proof.
  eexists. split; [vm_compute; reflexivity|]. split; [reflexivity|].
  eapply (open_implies_threshold
            [OpFail 10 "item-service"; OpFail 20 "item-service";
             OpCheck 25 "item-service"; OpFail 30 "item-service"]
            "item-service"); vm_compute; reflexivity.
Defined.

(** C1.  Whatever happened before ([ops0]), once a target has seen
    [failureThreshold] = 3 [recordFailure] calls with no
    [resetCircuitBreaker] (recordSuccess) on it in between -- two within
    [ops], interleaved at will with checks and with operations on other
    targets, and the third at clock [t] -- [isCircuitOpen] for that target
    answers [true] (the call is rejected) at every clock [now] at which the
    open duration has not elapsed since that last failure. *)
Theorem threshold_failures_open :
  ∀ (ops0 ops : list op) (n : string) (t now : Z),
    no_reset n ops →
    (2 ≤ count_fail n ops)%nat →
    now - t ≤ openDuration →
    fst (isCircuitOpen now n (run initial (ops0 ++ ops ++ [OpFail t n]))) = true.
Proof.
  intros ops0 ops n t now Hnr Hc Ht.
  rewrite !run_app. simpl.
  set (cb0 := run initial ops0).
  assert (Hwf : table_wf cb0) by (apply reachable_wf; by exists ops0).
  destruct (recordFailure_opens t n (run cb0 ops)) as (b & Hb & Ho & Hl & _).
  { rewrite run_fails_of by done. pose proof (fails_of_nonneg cb0 n Hwf).
    unfold failureThreshold. lia. }
  erewrite isCircuitOpen_within; eauto.
  unfold lastFailureNum. rewrite Hl. done.
Qed.

Lemma threshold_failures_open_witness :
  fst (isCircuitOpen 30300 "item-service"
         (run initial ([OpFail 1 "item-service"; OpReset "item-service"]
                       ++ [OpFail 100 "item-service"; OpCheck 150 "item-service";
                           OpFail 200 "item-service"]
                       ++ [OpFail 300 "item-service"]))) = true.
Proof.
  apply (threshold_failures_open
           [OpFail 1 "item-service"; OpReset "item-service"]
           [OpFail 100 "item-service"; OpCheck 150 "item-service";
            OpFail 200 "item-service"]
           "item-service" 300 30300).
  - repeat constructor.
  - vm_compute. lia.
  - vm_compute. discriminate.
Defined.

(** ** The open window and the half-open transition *)

Lemma checks_within n b T times : ∀ cb,
  cb !! n = Some b → isOpen b = true → lastFailure b = Some T →
  Forall (λ t, t ≤ T + openDuration) times →
  checks n times cb = (replicate (length times) true, cb).
Proof.
  induction times as [|t times IH]; intros cb Hb Ho Hl Hall; simpl; [done|].
  inversion Hall as [|? ? Ht Hrest]; subst.
  rewrite (isCircuitOpen_within t n cb b) by
    (try done; unfold lastFailureNum; rewrite Hl; lia).
  by rewrite IH.
Qed.

Lemma checks_closed n b times : ∀ cb,
  cb !! n = Some b → isOpen b = false →
  checks n times cb = (replicate (length times) false, cb).
Proof.
  induction times as [|t times IH]; intros cb Hb Ho; simpl; [done|].
  rewrite (isCircuitOpen_closed t n cb b) by done.
  by rewrite IH.
Qed.

(** C3, as stated, fails at the deadline itself: a breaker opened at
    [T = 0] still rejects the check made at [T + openDuration = 30000]. *)
Lemma deadline_check_still_rejected :
  let cb := run initial [OpFail 0 "catalog"; OpFail 0 "catalog"; OpFail 0 "catalog"] in
  cb !! "catalog" = Some (Breaker 3 true (Some 0))
  ∧ 0 + openDuration ≤ 30000
  ∧ fst (isCircuitOpen 30000 "catalog" cb) ≠ false.
Proof. vm_compute. repeat split; discriminate. Qed.

(** C3, amended.  For a breaker that is open with its last failure (the
    one that opened it) at [T] and no outcome recorded since: every check
    at a clock up to and including [T + openDuration] is rejected and leaves
    the table as it was, however many such checks are made, and the first
    check at a clock strictly after [T + openDuration] is permitted. *)
Theorem open_window_then_trial :
  ∀ (cb : gmap string breaker) (n : string) (b : breaker) (T : Z)
    (times : list Z) (now : Z),
    cb !! n = Some b → isOpen b = true → lastFailure b = Some T →
    Forall (λ t, t ≤ T + openDuration) times →
    T + openDuration < now →
    fst (checks n times cb) = replicate (length times) true
    ∧ snd (checks n times cb) = cb
    ∧ fst (isCircuitOpen now n (snd (checks n times cb))) = false.
Proof.
  intros cb n b T times now Hb Ho Hl Hall Hnow.
  rewrite (checks_within n b T times cb) by done. simpl.
  split; [done|]. split; [done|].
  rewrite (isCircuitOpen_elapsed now n cb b); try done.
  unfold lastFailureNum. rewrite Hl. lia.
Qed.

Lemma open_window_then_trial_witness :
  let cb := run initial [OpFail 5 "catalog"; OpFail 6 "catalog"; OpFail 7 "catalog"] in
  fst (checks "catalog" [8; 30007; 3; 30000] cb) = replicate 4 true
  ∧ snd (checks "catalog" [8; 30007; 3; 30000] cb) = cb
  ∧ fst (isCircuitOpen 30008 "catalog"
           (snd (checks "catalog" [8; 30007; 3; 30000] cb))) = false.
Proof.
  apply (open_window_then_trial
           (run initial [OpFail 5 "catalog"; OpFail 6 "catalog"; OpFail 7 "catalog"])
           "catalog" (Breaker 3 true (Some 7)) 7 [8; 30007; 3; 30000] 30008).
  - vm_compute. reflexivity.
  - reflexivity.
  - reflexivity.
  - repeat constructor; vm_compute; discriminate.
  - vm_compute. reflexivity.
Defined.

(** C4, as stated, fails: after the timeout the first check is permitted,
    and so is a second check made before any outcome has been recorded. *)
Lemma second_trial_also_permitted :
  let cb := run initial [OpFail 0 "catalog"; OpFail 0 "catalog"; OpFail 0 "catalog"] in
  cb !! "catalog" = Some (Breaker 3 true (Some 0))
  ∧ fst (checks "catalog" [30001; 30002] cb) = [false; false].
Proof. vm_compute. split; reflexivity. Qed.

(** C4, amended.  After the open timeout has elapsed on an open breaker,
    the check permits the call and clears the [isOpen] flag, keeping the
    failure counter; every further check on that target made before an
    outcome is recorded is permitted too, at whatever clock: the number of
    trial calls is not limited. *)
Theorem trial_calls_not_limited :
  ∀ (cb : gmap string breaker) (n : string) (b : breaker) (T now : Z)
    (times : list Z),
    cb !! n = Some b → isOpen b = true → lastFailure b = Some T →
    T + openDuration < now →
    fst (checks n (now :: times) cb) = replicate (S (length times)) false
    ∧ snd (checks n (now :: times) cb) !! n = Some (Breaker (failures b) false (Some T)).
Proof.
  intros cb n b T now times Hb Ho Hl Hnow. simpl.
  rewrite (isCircuitOpen_elapsed now n cb b)
    by (try done; unfold lastFailureNum; rewrite Hl; lia).
  rewrite (checks_closed n (Breaker (failures b) false (lastFailure b)) times)
    by (try done; apply lookup_insert_eq).
  simpl. split; [done|]. by rewrite lookup_insert_eq, Hl.
Qed.

Lemma trial_calls_not_limited_witness :
  let cb := run initial [OpFail 5 "catalog"; OpFail 6 "catalog"; OpFail 7 "catalog"] in
  fst (checks "catalog" [30008; 30009; 30010] cb) = replicate 3 false
  ∧ snd (checks "catalog" [30008; 30009; 30010] cb) !! "catalog"
    = Some (Breaker 3 false (Some 7)).
Proof.
  apply (trial_calls_not_limited
           (run initial [OpFail 5 "catalog"; OpFail 6 "catalog"; OpFail 7 "catalog"])
           "catalog" (Breaker 3 true (Some 7)) 7 30008 [30009; 30010]).
  - vm_compute. reflexivity.
  - reflexivity.
  - reflexivity.
  - vm_compute. reflexivity.
Defined.

(** * Properties of the proxy dispatcher *)

Section ProxyFacts.

Context (reg : gmap string ServiceRecord) (net : network).
Implicit Types (cb : gmap string breaker) (n : string).

Lemma proxyRequest_rejected n base req t0 t1 cb :
  isCircuitOpen t0 n cb = (true, cb) →
  proxyRequest reg net n base req t0 t1 cb
  = Outcome cb (Some (Response 503 (circuit_open_body n))) [].
Proof. intros H. unfold proxyRequest. by rewrite H. Qed.

Lemma proxyRequest_unregistered n base req t0 t1 cb :
  fst (isCircuitOpen t0 n cb) = false →
  discover reg n = None →
  proxyRequest reg net n base req t0 t1 cb
  = Outcome (recordFailure t1 n (snd (isCircuitOpen t0 n cb)))
      (Some (Response 503 (unavailable_body n))) [EvDiscover n].
Proof.
  intros Hc Hd. unfold proxyRequest.
  destruct (isCircuitOpen t0 n cb) as [o cb0]. simpl in *. subst o.
  by rewrite Hd.
Qed.

Lemma isCircuitOpen_fails_of now n cb :
  fails_of (snd (isCircuitOpen now n cb)) n = fails_of cb n.
Proof.
  change (snd (isCircuitOpen now n cb)) with (step cb (OpCheck now n)).
  rewrite step_fails_of by done. simpl. lia.
Qed.

(** One proxied request to a name that discovery does not know: the
    breaker is open afterwards, or the counter grew by one and is still
    short of the threshold. *)
Lemma unregistered_request_progress n base req t0 t1 cb :
  table_wf cb → discover reg n = None →
  let cb' := breakers (proxyRequest reg net n base req t0 t1 cb) in
  table_wf cb'
  ∧ (open_in cb' n
     ∨ (fails_of cb' n = fails_of cb n + 1 ∧ fails_of cb' n < failureThreshold)).
Proof.
  intros Hwf Hd. simpl.
  destruct (fst (isCircuitOpen t0 n cb)) eqn:Hc.
  - (* rejected by the breaker: nothing changes and it is open *)
    unfold proxyRequest. destruct (isCircuitOpen t0 n cb) as [o cb0] eqn:Hi.
    simpl in Hc. subst o. simpl.
    unfold isCircuitOpen in Hi.
    destruct (cb !! n) as [b|] eqn:Hb; [|by inversion Hi].
    destruct (isOpen b && _); inversion Hi as [[Ho Hcb]]. subst cb0.
    split; [done|]. left. by exists b.
  - rewrite proxyRequest_unregistered by done. simpl.
    split; [by apply recordFailure_wf, isCircuitOpen_wf|].
    pose proof (recordFailure_lookup t1 n (snd (isCircuitOpen t0 n cb))) as Hl.
    rewrite isCircuitOpen_fails_of in Hl.
    destruct (Z.leb_spec failureThreshold (fails_of cb n + 1)).
    + left. eexists. split; [exact Hl | done].
    + right. unfold fails_of at 1 3. rewrite Hl. simpl. fold (fails_of cb n). lia.
Qed.

Lemma unregistered_request_stays_open n base req t0 t1 cb :
  table_wf cb → discover reg n = None → open_in cb n →
  open_in (breakers (proxyRequest reg net n base req t0 t1 cb)) n.
Proof.
  intros Hwf Hd (b & Hb & Ho).
  destruct (Z.le_gt_cases (t0 - lastFailureNum b) openDuration) as [Hin|Hout].
  - rewrite proxyRequest_rejected by (by apply (isCircuitOpen_within t0 n cb b)).
    simpl. by exists b.
  - pose proof (isCircuitOpen_elapsed t0 n cb b Hb Ho Hout) as Hc.
    rewrite proxyRequest_unregistered by (try done; by rewrite Hc).
    rewrite Hc. simpl.
    destruct (recordFailure_opens t1 n
                (<[n:=Breaker (failures b) false (lastFailure b)]> cb))
      as (b' & Hb' & Ho' & _).
    { unfold fails_of. rewrite lookup_insert_eq. simpl.
      destruct (Hwf n b Hb) as [_ H3]. specialize (H3 Ho). lia. }
    by exists b'.
Qed.

End ProxyFacts.

(** C2.  When the target's breaker is open and the open duration has not
    elapsed at the clock read on entry, [proxyRequest] answers 503 with the
    service-unavailable body at once: the event trace is empty (no
    discovery, no outbound request) and the breaker table is untouched. *)
Theorem open_breaker_rejects_without_call :
  ∀ (reg : gmap string ServiceRecord) (net : network)
    (serviceName serviceBasePath : string) (req : incoming) (t0 t1 : Z)
    (cb : gmap string breaker) (b : breaker),
    cb !! serviceName = Some b →
    isOpen b = true →
    t0 - lastFailureNum b ≤ openDuration →
    proxyRequest reg net serviceName serviceBasePath req t0 t1 cb
    = Outcome cb (Some (Response 503 (circuit_open_body serviceName))) [].
Proof.
  intros reg net n base req t0 t1 cb b Hb Ho Ht.
  apply proxyRequest_rejected. by apply (isCircuitOpen_within t0 n cb b).
Qed.

Lemma open_breaker_rejects_without_call_witness :
  proxyRequest Sample.registry Sample.net_items_down "item-service" "/items"
    (Sample.get "/api/items?limit=5" None) 20000 20010 Sample.item_breaker_open
  = Outcome Sample.item_breaker_open
      (Some (Response 503 (circuit_open_body "item-service"))) [].
Proof.
  apply (open_breaker_rejects_without_call Sample.registry Sample.net_items_down
           "item-service" "/items" (Sample.get "/api/items?limit=5" None)
           20000 20010 Sample.item_breaker_open (Breaker 3 true (Some 3))).
  - vm_compute. reflexivity.
  - reflexivity.
  - vm_compute. discriminate.
Defined.

(** The scenario of three transport errors: each of the first three
    proxied requests reaches the wire, the fourth, 20 seconds later, is
    answered by the breaker and sends nothing. *)
Example three_transport_errors_then_rejected :
  let rq := Sample.get "/api/items" None in
  let px := proxyRequest Sample.registry Sample.net_down "item-service" "/items" rq in
  let o1 := px 100 110 initial in
  let o2 := px 200 210 (breakers o1) in
  let o3 := px 300 310 (breakers o2) in
  let o4 := px 20310 20320 (breakers o3) in
  (length (requests_to "item-service" (trace o1 ++ trace o2 ++ trace o3)) = 3)%nat
  ∧ replied o3 = Some (Response 503 (unavailable_body "item-service"))
  ∧ breakers o3 !! "item-service" = Some (Breaker 3 true (Some 310))
  ∧ o4 = Outcome (breakers o3)
           (Some (Response 503 (circuit_open_body "item-service"))) [].
Proof. vm_compute. repeat split; reflexivity. Qed.

(** C6, as stated, fails: item-service answers 404 with the body
    [{error: 'Not Found'}]; the gateway keeps the status but answers with
    its own envelope [{success: false, message: undefined}], not with the
    body it received. *)
Lemma downstream_body_not_passed_through :
  let req := Sample.get "/api/items/none" None in
  let out := proxyRequest Sample.registry Sample.net_404 "item-service" "/items"
               req 10 11 initial in
  validateStatus 404 = false
  ∧ trace out
    = [EvDiscover "item-service";
       EvHttp "item-service"
         (Request "GET" "http://127.0.0.1:3003/items/none" Js.Undefined
            [("Authorization", None)])]
  ∧ replied out = Some (Response 404 (failure_body Js.Undefined))
  ∧ ∀ r, replied out = Some r → res_body r ≠ Sample.not_found.
Proof.
  vm_compute. repeat split. intros r [= <-]. discriminate.
Qed.

(** C6, amended.  When the breaker lets the request through, discovery
    finds the target and the target answers with a non-2xx status [st] and
    a body [d] that is neither [null] nor [undefined], [proxyRequest]
    records a breaker failure for the target and answers with the status
    [st] and the body [{success: false, message: d.message}]. *)
Theorem downstream_error_status_and_message :
  ∀ (reg : gmap string ServiceRecord) (net : network)
    (serviceName serviceBasePath : string) (req : incoming) (t0 t1 : Z)
    (cb : gmap string breaker) (service : ServiceRecord)
    (st : Z) (d m : Js.value),
    fst (isCircuitOpen t0 serviceName cb) = false →
    discover reg serviceName = Some service →
    net (proxied_request service serviceBasePath req) = Some (st, d) →
    validateStatus st = false →
    Js.get_prop d "message" = Some m →
    proxyRequest reg net serviceName serviceBasePath req t0 t1 cb
    = Outcome (recordFailure t1 serviceName (snd (isCircuitOpen t0 serviceName cb)))
        (Some (Response st (failure_body m)))
        [EvDiscover serviceName;
         EvHttp serviceName (proxied_request service serviceBasePath req)].
Proof.
  intros reg net n base req t0 t1 cb service st d m Hc Hd Hn Hv Hm.
  unfold proxyRequest.
  destruct (isCircuitOpen t0 n cb) as [o cb0]. simpl in *. subst o.
  rewrite Hd. unfold axios. rewrite Hn, Hv.
  unfold proxy_catch. by rewrite Hm.
Qed.

Lemma downstream_error_status_and_message_witness :
  proxyRequest Sample.registry Sample.net_404 "item-service" "/items"
    (Sample.get "/api/items/none" (Some "Bearer abc")) 10 11 initial
  = Outcome (recordFailure 11 "item-service"
               (snd (isCircuitOpen 10 "item-service" initial)))
      (Some (Response 404 (failure_body Js.Undefined)))
      [EvDiscover "item-service";
       EvHttp "item-service"
         (proxied_request (Sample.record "http://127.0.0.1:3003") "/items"
            (Sample.get "/api/items/none" (Some "Bearer abc")))].
Proof.
  apply (downstream_error_status_and_message Sample.registry Sample.net_404
           "item-service" "/items"
           (Sample.get "/api/items/none" (Some "Bearer abc")) 10 11 initial
           (Sample.record "http://127.0.0.1:3003") 404 Sample.not_found Js.Undefined).
  - reflexivity.
  - vm_compute. reflexivity.
  - reflexivity.
  - reflexivity.
  - reflexivity.
Defined.

(** C10.  For a name that discovery does not know: (1) a proxied request
    that the breaker lets through ends in the catch block -- a failure is
    recorded for the name, the answer is the generic 503 and the only event
    is the failed discovery; (2) starting from any reachable breaker table,
    after three proxied requests to the name (any clocks, any paths) its
    breaker is open, and every further request whose entry clock is within
    the open duration of the recorded last failure is answered 503 by the
    breaker with an empty event trace: discovery is not attempted. *)
Theorem unregistered_target_trips_breaker :
  ∀ (reg : gmap string ServiceRecord) (net : network) (n : string),
    discover reg n = None →
    (∀ base req t0 t1 (cb : gmap string breaker),
       fst (isCircuitOpen t0 n cb) = false →
       proxyRequest reg net n base req t0 t1 cb
       = Outcome (recordFailure t1 n (snd (isCircuitOpen t0 n cb)))
           (Some (Response 503 (unavailable_body n))) [EvDiscover n])
    ∧ (∀ (history : list op) base1 req1 s1 e1 base2 req2 s2 e2 base3 req3 s3 e3,
         let cb0 := run initial history in
         let cb1 := breakers (proxyRequest reg net n base1 req1 s1 e1 cb0) in
         let cb2 := breakers (proxyRequest reg net n base2 req2 s2 e2 cb1) in
         let cb3 := breakers (proxyRequest reg net n base3 req3 s3 e3 cb2) in
         ∃ b, cb3 !! n = Some b ∧ isOpen b = true
              ∧ ∀ base req t0 t1,
                  t0 - lastFailureNum b ≤ openDuration →
                  proxyRequest reg net n base req t0 t1 cb3
                  = Outcome cb3 (Some (Response 503 (circuit_open_body n))) []).
Proof.
  intros reg net n Hd. split.
  - intros. by apply proxyRequest_unregistered.
  - intros history base1 req1 s1 e1 base2 req2 s2 e2 base3 req3 s3 e3 cb0 cb1 cb2 cb3.
    assert (Hwf0 : table_wf cb0) by (apply reachable_wf; by exists history).
    destruct (unregistered_request_progress reg net n base1 req1 s1 e1 cb0 Hwf0 Hd)
      as [Hwf1 H1]. fold cb1 in Hwf1, H1.
    destruct (unregistered_request_progress reg net n base2 req2 s2 e2 cb1 Hwf1 Hd)
      as [Hwf2 H2]. fold cb2 in Hwf2, H2.
    destruct (unregistered_request_progress reg net n base3 req3 s3 e3 cb2 Hwf2 Hd)
      as [Hwf3 H3]. fold cb3 in Hwf3, H3.
    assert (Hopen : open_in cb3 n).
    { destruct H3 as [H3|[H3 H3']]; [done|].
      destruct H2 as [H2|[H2 _]].
      { by apply unregistered_request_stays_open. }
      destruct H1 as [H1|[H1 _]].
      { apply unregistered_request_stays_open; [done..|].
        by apply unregistered_request_stays_open. }
      pose proof (fails_of_nonneg cb0 n Hwf0). unfold failureThreshold in *. lia. }
    destruct Hopen as (b & Hb & Ho). exists b. split; [done|]. split; [done|].
    intros base req t0 t1 Ht.
    apply proxyRequest_rejected. by apply (isCircuitOpen_within t0 n cb3 b).
Qed.

Lemma unregistered_target_trips_breaker_witness :
  let rq := Sample.get "/api/ghost" None in
  let px := proxyRequest Sample.registry Sample.net_down "ghost-service" "/ghost" rq in
  let cb3 := breakers (px 300 301 (breakers (px 200 201 (breakers (px 100 101 initial))))) in
  px 100 101 initial
  = Outcome (recordFailure 101 "ghost-service" initial)
      (Some (Response 503 (unavailable_body "ghost-service")))
      [EvDiscover "ghost-service"]
  ∧ cb3 !! "ghost-service" = Some (Breaker 3 true (Some 301))
  ∧ px 30301 30302 cb3
    = Outcome cb3 (Some (Response 503 (circuit_open_body "ghost-service"))) [].
Proof.
  intros rq px cb3.
  destruct (unregistered_target_trips_breaker Sample.registry Sample.net_down
              "ghost-service" eq_refl) as [Hfirst Hthree].
  split; [apply (Hfirst "/ghost" rq 100 101 initial); reflexivity|].
  destruct (Hthree [] "/ghost" rq 100 101 "/ghost" rq 200 201 "/ghost" rq 300 301)
    as (b & Hb & _ & Hrej).
  assert (Hcb : cb3 !! "ghost-service" = Some (Breaker 3 true (Some 301)))
    by (vm_compute; reflexivity).
  split; [exact Hcb|].
  apply Hrej.
  assert (Hb' : cb3 !! "ghost-service" = Some b) by exact Hb.
  rewrite Hcb in Hb'. injection Hb' as <-. vm_compute. discriminate.
Defined.

(** * Properties of the aggregate endpoints *)

Section AggregateFacts.

Context (reg : gmap string ServiceRecord) (net : network).




Lemma getDashboard_trace req cb :
  Js.truthy (header_Authorization req) = true →
  trace (getDashboard reg net req cb)
  = (snd (callService reg net "list-service" "/lists?limit=5" (header_Authorization req))
     ++ snd (callService reg net "item-service" "/items?limit=5" None))%list.
Proof.
  intros Ha. unfold getDashboard. rewrite Ha. simpl.
  destruct (callService reg net "list-service" _ _) as [r1 tr1].
  destruct (callService reg net "item-service" _ _) as [r2 tr2].
  by destruct (slot r1), (slot r2).
Qed.

(** The aggregate handlers hand the breaker table back as they found it. *)
Lemma aggregates_leave_breakers req cb :
  breakers (getDashboard reg net req cb) = cb
  ∧ breakers (globalSearch reg net req cb) = cb.
Proof.
  split.
  - unfold getDashboard. destruct (negb _); [done|].
    destruct (callService reg net "list-service" _ _) as [r1 tr1].
    destruct (callService reg net "item-service" _ _) as [r2 tr2].
    by destruct (slot r1), (slot r2).
  - unfold globalSearch. destruct (negb _); [done|].
    destruct (callService reg net "item-service" _ _) as [r tr].
    by destruct (r ≫= _).
Qed.

End AggregateFacts.

(** C7, as stated, fails: list-service is fulfilled with the JSON body
    [null] while item-service does not answer.  One sub-call succeeded and
    the other failed, yet [listsResponse.value.data] throws inside the [try]
    and the handler's catch-all answers 500 for the whole dashboard. *)
Lemma null_body_fails_whole_dashboard :
  let req := Sample.get "/api/dashboard" (Some "Bearer abc") in
  Js.truthy (header_Authorization req) = true
  ∧ fst (callService Sample.registry Sample.net_null_lists "list-service"
           "/lists?limit=5" (header_Authorization req)) = Some Js.Null
  ∧ fst (callService Sample.registry Sample.net_null_lists "item-service"
           "/items?limit=5" None) = None
  ∧ replied (getDashboard Sample.registry Sample.net_null_lists req initial)
    = Some (Response 500 (failure_body (Js.Str "Erro ao montar o dashboard")))
  ∧ ∀ r, replied (getDashboard Sample.registry Sample.net_null_lists req initial)
         = Some r → ¬ (200 ≤ res_status r < 300).
Proof.
  intros req.
  assert (H500 : replied (getDashboard Sample.registry Sample.net_null_lists req initial)
                 = Some (Response 500 (failure_body (Js.Str "Erro ao montar o dashboard"))))
    by (vm_compute; reflexivity).
  split; [reflexivity|]. split; [vm_compute; reflexivity|].
  split; [vm_compute; reflexivity|]. split; [exact H500|].
  intros r Hr. rewrite H500 in Hr. injection Hr as <-. simpl. lia.
Qed.

(** C7, amended.  For an authenticated dashboard request (a non-empty
    Authorization header) in which one sub-call fails (discovery, transport
    or non-2xx) and the other succeeds with a body that is neither [null]
    nor [undefined], so that its [data] can be read and is [d], the gateway
    answers with HTTP status 200 and [success: true], carrying [d] in the
    successful slot and the empty list in the failed one.  Both ways round. *)
Theorem dashboard_tolerates_partial_failure :
  ∀ (reg : gmap string ServiceRecord) (net : network) (req : incoming)
    (cb : gmap string breaker) (body d : Js.value),
    Js.truthy (header_Authorization req) = true →
    Js.get_prop body "data" = Some d →
    (fst (callService reg net "list-service" "/lists?limit=5"
            (header_Authorization req)) = Some body →
     fst (callService reg net "item-service" "/items?limit=5" None) = None →
     replied (getDashboard reg net req cb)
     = Some (Response 200 (dashboard_body d (Js.Arr []))))
    ∧ (fst (callService reg net "list-service" "/lists?limit=5"
              (header_Authorization req)) = None →
       fst (callService reg net "item-service" "/items?limit=5" None) = Some body →
       replied (getDashboard reg net req cb)
       = Some (Response 200 (dashboard_body (Js.Arr []) d))).
Proof.
  intros reg net req cb body d Ha Hd.
  split; intros Hl Hi; unfold getDashboard; rewrite Ha; simpl;
    destruct (callService reg net "list-service" _ _) as [r1 tr1];
    destruct (callService reg net "item-service" _ _) as [r2 tr2];
    simpl in Hl, Hi; subst r1 r2; simpl; by rewrite Hd.
Qed.

Lemma dashboard_tolerates_partial_failure_witness :
  let req := Sample.get "/api/dashboard" (Some "Bearer abc") in
  replied (getDashboard Sample.registry Sample.net_items_down req initial)
  = Some (Response 200 (dashboard_body Sample.lists (Js.Arr [])))
  ∧ replied (getDashboard Sample.registry Sample.net_lists_down req initial)
    = Some (Response 200 (dashboard_body (Js.Arr []) Sample.items)).
Proof.
  intros req. split.
  - apply (proj1 (dashboard_tolerates_partial_failure Sample.registry
                    Sample.net_items_down req initial
                    (Sample.envelope Sample.lists) Sample.lists eq_refl eq_refl));
      vm_compute; reflexivity.
  - apply (proj2 (dashboard_tolerates_partial_failure Sample.registry
                    Sample.net_lists_down req initial
                    (Sample.envelope Sample.items) Sample.items eq_refl eq_refl));
      vm_compute; reflexivity.
Defined.

(** C8 does not hold of the code.  With item-service's breaker open (three
    failures at clocks 1, 2, 3; a check at clock 10 rejects) and
    item-service not answering, the dashboard and the global search still
    send their request to item-service, and the failure of that request
    leaves the breaker table exactly as it was; on a fresh table no failure
    is recorded either. *)
Theorem aggregate_subcalls_bypass_breaker :
  let cb := Sample.item_breaker_open in
  let dash := getDashboard Sample.registry Sample.net_items_down
                (Sample.get "/api/dashboard" (Some "Bearer abc")) in
  let search := globalSearch Sample.registry Sample.net_items_down
                  (Incoming "GET" "/api/search?q=arroz" Js.Undefined None (Some "arroz")) in
  cb !! "item-service" = Some (Breaker 3 true (Some 3))
  ∧ fst (isCircuitOpen 10 "item-service" cb) = true
  ∧ requests_to "item-service" (trace (dash cb))
    = [Request "GET" "http://127.0.0.1:3003/items?limit=5" Js.Undefined []]
  ∧ requests_to "item-service" (trace (search cb))
    = [Request "GET" "http://127.0.0.1:3003/search?q=arroz" Js.Undefined []]
  ∧ breakers (dash cb) = cb
  ∧ breakers (search cb) = cb
  ∧ breakers (dash initial) = initial
  ∧ breakers (search initial) = initial.
Proof. vm_compute. repeat split; reflexivity. Qed.



(** * Further properties of the circuit breaker *)

Section CounterFacts.

Implicit Types (cb : gmap string breaker) (n : string).

Lemma step_count n cb o :
  fails_of (step cb o) n = count_step n (fails_of cb n) o.
Proof.
  destruct o as [now n'|now n'|n']; simpl.
  - destruct (decide (n' = n)) as [->|Hne].
    + apply isCircuitOpen_fails_of.
    + unfold fails_of. by rewrite isCircuitOpen_other.
  - rewrite eqb_decide. case_bool_decide as Hn.
    + subst n'. unfold fails_of at 1. by rewrite recordFailure_lookup.
    + unfold fails_of. by rewrite recordFailure_other.
  - rewrite eqb_decide. case_bool_decide as Hn.
    + subst n'. unfold fails_of, resetCircuitBreaker.
      destruct (cb !! n) as [b|] eqn:Hb; [by rewrite lookup_insert_eq | by rewrite Hb].
    + unfold fails_of. by rewrite resetCircuitBreaker_other.
Qed.

Lemma run_count n ops : ∀ cb,
  fails_of (run cb ops) n = foldl (count_step n) (fails_of cb n) ops.
Proof.
  induction ops as [|o ops IH]; intros cb; simpl; [done|].
  by rewrite IH, step_count.
Qed.

Lemma step_last_fail n cb o :
  step cb o !! n ≫= lastFailure = last_fail_step n (cb !! n ≫= lastFailure) o
  ∧ (is_Some (step cb o !! n)
     ↔ is_Some (cb !! n) ∨ is_fail_of n o = true).
Proof.
  destruct o as [now n'|now n'|n']; simpl.
  - destruct (decide (n' = n)) as [->|Hne].
    + unfold isCircuitOpen. destruct (cb !! n) as [b|] eqn:Hb; simpl.
      * destruct (isOpen b && _); simpl.
        -- rewrite lookup_insert_eq. simpl. split; [done|]. split; eauto.
        -- rewrite Hb. simpl. split; [done|]. split; eauto.
      * rewrite Hb. split; [done|]. split; [eauto | by intros [?|?]].
    + rewrite isCircuitOpen_other by done. split; [done|].
      split; [eauto | by intros [?|?]].
  - rewrite eqb_decide. case_bool_decide as Hn.
    + subst n'. rewrite recordFailure_lookup. simpl. split; [done|]. split; eauto.
    + rewrite recordFailure_other by done. split; [done|].
      split; [eauto | by intros [?|?]].
  - destruct (decide (n' = n)) as [->|Hne].
    + unfold resetCircuitBreaker. destruct (cb !! n) as [b|] eqn:Hb.
      * rewrite lookup_insert_eq. simpl. split; [done|]. split; eauto.
      * rewrite Hb. split; [done|]. split; [eauto | by intros [?|?]].
    + rewrite resetCircuitBreaker_other by done. split; [done|].
      split; [eauto | by intros [?|?]].
Qed.

Lemma run_last_fail n ops : ∀ cb,
  (is_Some (cb !! n) → is_Some (cb !! n ≫= lastFailure)) →
  run cb ops !! n ≫= lastFailure = foldl (last_fail_step n) (cb !! n ≫= lastFailure) ops
  ∧ (is_Some (run cb ops !! n) → is_Some (run cb ops !! n ≫= lastFailure)).
Proof.
  induction ops as [|o ops IH]; intros cb Hcb; simpl; [done|].
  destruct (step_last_fail n cb o) as [Hl Hs].
  rewrite <- Hl. apply IH.
  intros Hsome. apply Hs in Hsome. rewrite Hl.
  destruct Hsome as [Hsome|Hf].
  - specialize (Hcb Hsome). destruct o as [?|? n'|?]; simpl; try done.
    destruct (String.eqb n n'); [eauto | done].
  - destruct o as [?|? n'|?]; simpl in *; try done. rewrite Hf. eauto.
Qed.

Lemma fails_of_run_initial ops n :
  fails_of (run initial ops) n = fails_since_reset n ops.
Proof.
  rewrite run_count. unfold fails_of, initial. by rewrite lookup_empty.
Qed.

End CounterFacts.

(** The failure counter of a target is exactly the number of
    [recordFailure] calls on it since the last [resetCircuitBreaker] on it
    (since the start if there was none); checks and the operations on other
    targets do not count. *)
Theorem counter_counts_failures_since_reset :
  ∀ (ops : list op) (n : string),
    fails_of (run initial ops) n = fails_since_reset n ops.
Proof. intros ops n. apply fails_of_run_initial. Qed.

(** A breaker object exists for a target exactly when a failure has been
    recorded for it at some point (checks and resets never create one and
    nothing deletes one), and its [lastFailure] is then the clock of the most
    recent recorded failure, never the initial [null]. *)
Theorem breaker_created_by_first_failure :
  ∀ (ops : list op) (n : string),
    (is_Some (run initial ops !! n) ↔ is_Some (last_fail n ops))
    ∧ (∀ b, run initial ops !! n = Some b → lastFailure b = last_fail n ops).
Proof.
  intros ops n.
  destruct (run_last_fail n ops initial) as [Hl Hs].
  { unfold initial. rewrite lookup_empty. by intros [? ?]. }
  unfold initial in Hl at 2. rewrite lookup_empty in Hl. simpl in Hl.
  fold (last_fail n ops) in Hl.
  split.
  - split.
    + intros Hsome. rewrite <- Hl. by apply Hs.
    + rewrite <- Hl. destruct (run initial ops !! n); [eauto | by intros [? ?]].
  - intros b Hb. rewrite Hb in Hl. simpl in Hl. rewrite <- Hl.
    rewrite Hb in Hs. destruct (Hs (mk_is_Some _ _ eq_refl)) as [t Ht].
    simpl in Ht. done.
Qed.

(** While a target has fewer than three recorded failures since its last
    reset, the breaker never rejects a call to it, at any clock. *)
Theorem below_threshold_never_rejects :
  ∀ (ops : list op) (n : string) (now : Z),
    fails_since_reset n ops < failureThreshold →
    isCircuitOpen now n (run initial ops) = (false, run initial ops).
Proof.
  intros ops n now Hlt.
  rewrite <- fails_of_run_initial in Hlt.
  destruct (run initial ops !! n) as [b|] eqn:Hb.
  - apply (isCircuitOpen_closed now n _ b Hb).
    destruct (isOpen b) eqn:Ho; [|done].
    assert (Hwf : table_wf (run initial ops)) by (apply reachable_wf; by exists ops).
    destruct (Hwf n b Hb) as [_ H3]. specialize (H3 Ho).
    unfold fails_of in Hlt. rewrite Hb in Hlt. lia.
  - by apply isCircuitOpen_absent.
Qed.

Lemma below_threshold_never_rejects_witness :
  let ops := [OpFail 1 "item-service"; OpFail 2 "item-service"; OpFail 3 "item-service";
              OpReset "item-service"; OpFail 4 "item-service"; OpFail 5 "item-service"] in
  isCircuitOpen 6 "item-service" (run initial ops) = (false, run initial ops).
Proof.
  intros ops.
  apply (below_threshold_never_rejects ops "item-service" 6).
  vm_compute. reflexivity.
Defined.

(** * Further properties of the proxy dispatcher *)

Section ProxyMore.

Context (reg : gmap string ServiceRecord) (net : network).
Implicit Types (cb : gmap string breaker) (n : string).

(** Every attempt that gets past the breaker and fails records one
    failure at the clock read in the catch block. *)
Lemma proxyRequest_failed n base req t0 t1 cb :
  fst (isCircuitOpen t0 n cb) = false →
  attempt_fails reg net n base req →
  breakers (proxyRequest reg net n base req t0 t1 cb)
  = recordFailure t1 n (snd (isCircuitOpen t0 n cb)).
Proof.
  intros Hc Hf. unfold proxyRequest, attempt_fails in *.
  destruct (isCircuitOpen t0 n cb) as [o cb0]. simpl in *. subst o.
  destruct (discover reg n) as [service|]; [|done].
  destruct Hf as [resp ->]. unfold proxy_catch.
  destruct resp as [[st d]|]; [|done].
  by destruct (Js.get_prop d "message").
Qed.

Lemma proxyRequest_other n n' base req t0 t1 cb :
  n ≠ n' →
  breakers (proxyRequest reg net n base req t0 t1 cb) !! n' = cb !! n'.
Proof.
  intros Hne. unfold proxyRequest.
  pose proof (isCircuitOpen_other t0 n n' cb Hne) as Hi.
  destruct (isCircuitOpen t0 n cb) as [o cb0]. simpl in Hi.
  destruct o; [done|].
  assert (Hcatch : ∀ resp tr,
            breakers (proxy_catch t1 n resp tr cb0) !! n' = cb !! n').
  { intros resp tr. unfold proxy_catch.
    destruct resp as [[st d]|]; [destruct (Js.get_prop d "message")|];
      simpl; by rewrite recordFailure_other. }
  destruct (discover reg n) as [service|]; [|apply Hcatch].
  destruct (axios net _); [|apply Hcatch].
  simpl. by rewrite resetCircuitBreaker_other.
Qed.

End ProxyMore.

Lemma strip_prefix_app pat rest : Js.strip_prefix pat (pat +:+ rest) = Some rest.
Proof.
  induction pat as [|a pat IH]; simpl; [by destruct rest|].
  by rewrite Ascii.eqb_refl.
Qed.

Lemma replace_prefix pat rep rest : Js.replace pat rep (pat +:+ rest) = rep +:+ rest.
Proof.
  destruct (pat +:+ rest) eqn:He; simpl;
    rewrite <- He, strip_prefix_app; done.
Qed.

Lemma replace_absent pat rep s : Js.includes pat s = false → Js.replace pat rep s = s.
Proof.
  induction s as [|c s IH]; simpl.
  - by destruct (Js.strip_prefix pat "").
  - destruct (Js.strip_prefix pat (String c s)); [done|].
    intros H. by rewrite IH.
Qed.

(** A 2xx reply passes through unchanged and closes the breaker: the caller
    receives the target's status and body as they are, the target's failure
    counter is back at zero, and no later check rejects until new failures
    are recorded. *)
Theorem success_passes_through_and_resets :
  ∀ (reg : gmap string ServiceRecord) (net : network)
    (serviceName serviceBasePath : string) (req : incoming) (t0 t1 : Z)
    (cb : gmap string breaker) (service : ServiceRecord) (st : Z) (d : Js.value),
    fst (isCircuitOpen t0 serviceName cb) = false →
    discover reg serviceName = Some service →
    net (proxied_request service serviceBasePath req) = Some (st, d) →
    validateStatus st = true →
    let out := proxyRequest reg net serviceName serviceBasePath req t0 t1 cb in
    replied out = Some (Response st d)
    ∧ trace out = [EvDiscover serviceName;
                   EvHttp serviceName (proxied_request service serviceBasePath req)]
    ∧ fails_of (breakers out) serviceName = 0
    ∧ ∀ now, isCircuitOpen now serviceName (breakers out) = (false, breakers out).
Proof.
  intros reg net n base req t0 t1 cb service st d Hc Hd Hn Hv. simpl.
  unfold proxyRequest.
  destruct (isCircuitOpen t0 n cb) as [o cb0]. simpl in *. subst o.
  rewrite Hd. unfold axios. rewrite Hn, Hv. simpl.
  split; [done|]. split; [done|].
  unfold fails_of, resetCircuitBreaker.
  destruct (cb0 !! n) as [b|] eqn:Hb.
  - rewrite lookup_insert_eq. split; [done|]. intros now.
    eapply isCircuitOpen_closed; [apply lookup_insert_eq | done].
  - rewrite Hb. split; [done|]. intros now. by apply isCircuitOpen_absent.
Qed.

Lemma success_passes_through_and_resets_witness :
  let req := Sample.get "/api/lists?limit=5" (Some "Bearer abc") in
  let cb := run initial [OpFail 1 "list-service"; OpFail 2 "list-service"] in
  let out := proxyRequest Sample.registry Sample.net_items_down "list-service" "/lists"
               req 10 11 cb in
  replied out = Some (Response 200 (Sample.envelope Sample.lists))
  ∧ trace out
    = [EvDiscover "list-service";
       EvHttp "list-service"
         (proxied_request (Sample.record "http://127.0.0.1:3002") "/lists" req)]
  ∧ fails_of (breakers out) "list-service" = 0
  ∧ ∀ now, isCircuitOpen now "list-service" (breakers out) = (false, breakers out).
Proof.
  intros req cb.
  apply (success_passes_through_and_resets Sample.registry Sample.net_items_down
           "list-service" "/lists" req 10 11 cb
           (Sample.record "http://127.0.0.1:3002") 200 (Sample.envelope Sample.lists));
    vm_compute; reflexivity.
Defined.

(** Bulkhead: a proxied request to one target, whatever its outcome,
    leaves the breaker of every other target as it was. *)
Theorem proxy_touches_only_its_target :
  ∀ (reg : gmap string ServiceRecord) (net : network)
    (serviceName other serviceBasePath : string) (req : incoming) (t0 t1 : Z)
    (cb : gmap string breaker),
    serviceName ≠ other →
    breakers (proxyRequest reg net serviceName serviceBasePath req t0 t1 cb) !! other
    = cb !! other.
Proof. intros. by apply proxyRequest_other. Qed.

Lemma proxy_touches_only_its_target_witness :
  breakers (proxyRequest Sample.registry Sample.net_down "list-service" "/lists"
              (Sample.get "/api/lists" None) 40 41 Sample.item_breaker_open)
    !! "item-service"
  = Sample.item_breaker_open !! "item-service".
Proof.
  apply (proxy_touches_only_its_target Sample.registry Sample.net_down
           "list-service" "item-service" "/lists" (Sample.get "/api/lists" None)
           40 41 Sample.item_breaker_open).
  discriminate.
Defined.

(** Half-open trial that fails: on a breaker of a running gateway that is
    open with its timeout elapsed, the request is let through, and if the
    attempt fails (discovery, transport or non-2xx) this single failure
    re-opens the breaker and restarts the window at the clock of the failure:
    checks within the open duration of it are rejected again. *)
Theorem failed_trial_reopens :
  ∀ (reg : gmap string ServiceRecord) (net : network) (history : list op)
    (serviceName serviceBasePath : string) (req : incoming) (t0 t1 : Z) (b : breaker),
    run initial history !! serviceName = Some b →
    isOpen b = true →
    openDuration < t0 - lastFailureNum b →
    attempt_fails reg net serviceName serviceBasePath req →
    let out := proxyRequest reg net serviceName serviceBasePath req t0 t1
                 (run initial history) in
    breakers out !! serviceName = Some (Breaker (failures b + 1) true (Some t1))
    ∧ ∀ now, now - t1 ≤ openDuration →
             isCircuitOpen now serviceName (breakers out) = (true, breakers out).
Proof.
  intros reg net history n base req t0 t1 b Hb Ho Ht Hf. simpl.
  set (cb := run initial history) in *.
  assert (Hwf : table_wf cb) by (apply reachable_wf; by exists history).
  pose proof (isCircuitOpen_elapsed t0 n cb b Hb Ho Ht) as Hc.
  rewrite (proxyRequest_failed reg net) by (try done; by rewrite Hc).
  rewrite Hc. simpl.
  assert (Hl : recordFailure t1 n (<[n:=Breaker (failures b) false (lastFailure b)]> cb) !! n
               = Some (Breaker (failures b + 1) true (Some t1))).
  { rewrite recordFailure_lookup. unfold fails_of. rewrite lookup_insert_eq. simpl.
    destruct (Hwf n b Hb) as [_ H3]. specialize (H3 Ho).
    destruct (Z.leb_spec failureThreshold (failures b + 1)); [done | lia]. }
  split; [exact Hl|]. intros now Hnow.
  by apply (isCircuitOpen_within now n _ _ Hl).
Qed.

Lemma failed_trial_reopens_witness :
  let out := proxyRequest Sample.registry Sample.net_down "item-service" "/items"
               (Sample.get "/api/items" None) 30004 30009
               (run initial [OpFail 1 "item-service"; OpFail 2 "item-service";
                             OpFail 3 "item-service"]) in
  breakers out !! "item-service" = Some (Breaker (3 + 1) true (Some 30009))
  ∧ ∀ now, now - 30009 ≤ openDuration →
           isCircuitOpen now "item-service" (breakers out) = (true, breakers out).
Proof.
  apply (failed_trial_reopens Sample.registry Sample.net_down
           [OpFail 1 "item-service"; OpFail 2 "item-service"; OpFail 3 "item-service"]
           "item-service" "/items" (Sample.get "/api/items" None) 30004 30009
           (Breaker 3 true (Some 3))).
  - vm_compute. reflexivity.
  - reflexivity.
  - vm_compute. reflexivity.
  - unfold attempt_fails. simpl. exists None. reflexivity.
Defined.

(** A registered target that does not answer (connection refused,
    timeout): the breaker table gets one more failure for the target, stamped
    with the clock of the catch block, and the caller receives the generic
    503 naming the service. *)
Theorem transport_error_is_generic_503 :
  ∀ (reg : gmap string ServiceRecord) (net : network)
    (serviceName serviceBasePath : string) (req : incoming) (t0 t1 : Z)
    (cb : gmap string breaker) (service : ServiceRecord),
    fst (isCircuitOpen t0 serviceName cb) = false →
    discover reg serviceName = Some service →
    net (proxied_request service serviceBasePath req) = None →
    let out := proxyRequest reg net serviceName serviceBasePath req t0 t1 cb in
    replied out = Some (Response 503 (unavailable_body serviceName))
    ∧ fails_of (breakers out) serviceName = fails_of cb serviceName + 1
    ∧ breakers out !! serviceName ≫= lastFailure = Some t1.
Proof.
  intros reg net n base req t0 t1 cb service Hc Hd Hn. simpl.
  assert (Hb : breakers (proxyRequest reg net n base req t0 t1 cb)
               = recordFailure t1 n (snd (isCircuitOpen t0 n cb))).
  { apply proxyRequest_failed; [done|]. unfold attempt_fails. rewrite Hd.
    exists None. unfold axios. by rewrite Hn. }
  rewrite Hb. split.
  - unfold proxyRequest.
    destruct (isCircuitOpen t0 n cb) as [o cb0]. simpl in Hc. subst o.
    rewrite Hd. unfold axios. by rewrite Hn.
  - unfold fails_of at 1. rewrite recordFailure_lookup. simpl.
    by rewrite isCircuitOpen_fails_of.
Qed.

Lemma transport_error_is_generic_503_witness :
  let out := proxyRequest Sample.registry Sample.net_down "user-service" "/auth"
               (Sample.get "/api/auth/login" None) 5 9 Sample.item_breaker_open in
  replied out = Some (Response 503 (unavailable_body "user-service"))
  ∧ fails_of (breakers out) "user-service"
    = fails_of Sample.item_breaker_open "user-service" + 1
  ∧ breakers out !! "user-service" ≫= lastFailure = Some 9.
Proof.
  apply (transport_error_is_generic_503 Sample.registry Sample.net_down
           "user-service" "/auth" (Sample.get "/api/auth/login" None) 5 9
           Sample.item_breaker_open (Sample.record "http://127.0.0.1:3001"));
    vm_compute; reflexivity.
Defined.

(** Once the attempt of [proxyRequest] has settled -- the breaker
    rejected it, discovery failed, or the axios promise resolved or rejected
    -- a response is sent, with one exception: a rejection that carries a
    non-2xx reply whose body is [null] or [undefined] makes reading
    [error.response.data.message] throw inside the catch block, so that no
    response is sent although the failure has been recorded.  An outbound
    call that never settles is not covered: the handler is then still
    waiting. *)
Theorem proxy_replies_once_attempt_settles :
  ∀ (reg : gmap string ServiceRecord) (net : network)
    (serviceName serviceBasePath : string) (req : incoming) (t0 t1 : Z)
    (cb : gmap string breaker),
    let out := proxyRequest reg net serviceName serviceBasePath req t0 t1 cb in
    (fst (isCircuitOpen t0 serviceName cb) = true → is_Some (replied out))
    ∧ (fst (isCircuitOpen t0 serviceName cb) = false →
       discover reg serviceName = None → is_Some (replied out))
    ∧ (∀ service s,
         fst (isCircuitOpen t0 serviceName cb) = false →
         discover reg serviceName = Some service →
         axios net (proxied_request service serviceBasePath req) = s →
         match s with
         | Resolved _ _ => is_Some (replied out)
         | Rejected None => is_Some (replied out)
         | Rejected (Some (st, d)) =>
             if Js.nullish d
             then replied out = None
                  ∧ breakers out
                    = recordFailure t1 serviceName
                        (snd (isCircuitOpen t0 serviceName cb))
             else is_Some (replied out)
         end).
Proof.
  intros reg net n base req t0 t1 cb. simpl. unfold proxyRequest.
  destruct (isCircuitOpen t0 n cb) as [o cb0]. simpl.
  split; [intros ->; simpl; eauto|].
  split.
  - intros -> ->. simpl. eauto.
  - intros service s -> -> <-.
    destruct (axios net (proxied_request service base req)) as [st d|[[st d]|]];
      simpl; eauto.
    destruct d; simpl; eauto.
Qed.

Lemma proxy_replies_once_attempt_settles_witness :
  let out := proxyRequest Sample.registry Sample2.net_404_null "item-service" "/items"
               (Sample.get "/api/items/none" None) 10 11 initial in
  replied out = None
  ∧ breakers out
    = recordFailure 11 "item-service" (snd (isCircuitOpen 10 "item-service" initial)).
Proof.
  apply (proj2 (proj2 (proxy_replies_once_attempt_settles Sample.registry
                         Sample2.net_404_null "item-service" "/items"
                         (Sample.get "/api/items/none" None) 10 11 initial))
           (Sample.record "http://127.0.0.1:3003")
           (Rejected (Some (404, Js.Null))));
    vm_compute; reflexivity.
Defined.

(** Path rewriting.  When [req.originalUrl] begins with the mount path
    [/api<base>], the target URL is the service URL followed by [<base>] and
    the rest of the original URL (query string included); only this first
    occurrence is rewritten.  When the mount path does not occur in
    [req.originalUrl] at all, the original URL is forwarded as it is. *)
Theorem target_url_drops_api_prefix :
  ∀ (service : ServiceRecord) (serviceBasePath rest : string) (req : incoming),
    (originalUrl req = ("/api" +:+ serviceBasePath) +:+ rest →
     req_url (proxied_request service serviceBasePath req)
     = url service +:+ (serviceBasePath +:+ rest))
    ∧ (Js.includes ("/api" +:+ serviceBasePath) (originalUrl req) = false →
       req_url (proxied_request service serviceBasePath req)
       = url service +:+ originalUrl req).
Proof.
  intros service base rest req. unfold proxied_request. simpl. split.
  - intros ->. by rewrite replace_prefix.
  - intros H. by rewrite replace_absent.
Qed.

Lemma target_url_drops_api_prefix_witness :
  req_url (proxied_request (Sample.record "http://127.0.0.1:3002") "/lists"
             (Sample.get "/api/lists/7/items?x=/api/lists" None))
  = "http://127.0.0.1:3002" +:+ ("/lists" +:+ "/7/items?x=/api/lists")
  ∧ req_url (proxied_request (Sample.record "http://127.0.0.1:3002") "/lists"
               (Sample.get "/API/Lists/7" None))
    = "http://127.0.0.1:3002" +:+ "/API/Lists/7".
Proof.
  split.
  - apply (proj1 (target_url_drops_api_prefix
                    (Sample.record "http://127.0.0.1:3002") "/lists"
                    "/7/items?x=/api/lists"
                    (Sample.get "/api/lists/7/items?x=/api/lists" None))).
    reflexivity.
  - apply (proj2 (target_url_drops_api_prefix
                    (Sample.record "http://127.0.0.1:3002") "/lists" ""
                    (Sample.get "/API/Lists/7" None))).
    vm_compute. reflexivity.
Defined.

Section FailingAttempts.

Context (reg : gmap string ServiceRecord) (net : network).
Implicit Types (cb : gmap string breaker) (n : string).

Lemma failing_request_progress n base req t0 t1 cb :
  table_wf cb → attempt_fails reg net n base req →
  let cb' := breakers (proxyRequest reg net n base req t0 t1 cb) in
  table_wf cb'
  ∧ (open_in cb' n
     ∨ (fails_of cb' n = fails_of cb n + 1 ∧ fails_of cb' n < failureThreshold)).
Proof.
  intros Hwf Hf. simpl.
  destruct (fst (isCircuitOpen t0 n cb)) eqn:Hc.
  - unfold proxyRequest. destruct (isCircuitOpen t0 n cb) as [o cb0] eqn:Hi.
    simpl in Hc. subst o. simpl.
    unfold isCircuitOpen in Hi.
    destruct (cb !! n) as [b|] eqn:Hb; [|by inversion Hi].
    destruct (isOpen b && _); inversion Hi as [[Ho Hcb]]. subst cb0.
    split; [done|]. left. by exists b.
  - rewrite (proxyRequest_failed reg net) by done.
    split; [by apply recordFailure_wf, isCircuitOpen_wf|].
    pose proof (recordFailure_lookup t1 n (snd (isCircuitOpen t0 n cb))) as Hl.
    rewrite isCircuitOpen_fails_of in Hl.
    destruct (Z.leb_spec failureThreshold (fails_of cb n + 1)).
    + left. eexists. split; [exact Hl | done].
    + right. unfold fails_of at 1 3. rewrite Hl. simpl. fold (fails_of cb n). lia.
Qed.

Lemma failing_request_stays_open n base req t0 t1 cb :
  table_wf cb → attempt_fails reg net n base req → open_in cb n →
  open_in (breakers (proxyRequest reg net n base req t0 t1 cb)) n.
Proof.
  intros Hwf Hf (b & Hb & Ho).
  destruct (Z.le_gt_cases (t0 - lastFailureNum b) openDuration) as [Hin|Hout].
  - rewrite proxyRequest_rejected by (by apply (isCircuitOpen_within t0 n cb b)).
    simpl. by exists b.
  - pose proof (isCircuitOpen_elapsed t0 n cb b Hb Ho Hout) as Hc.
    rewrite (proxyRequest_failed reg net) by (try done; by rewrite Hc).
    rewrite Hc. simpl.
    destruct (recordFailure_opens t1 n
                (<[n:=Breaker (failures b) false (lastFailure b)]> cb))
      as (b' & Hb' & Ho' & _).
    { unfold fails_of. rewrite lookup_insert_eq. simpl.
      destruct (Hwf n b Hb) as [_ H3]. specialize (H3 Ho). lia. }
    by exists b'.
Qed.

Lemma three_failing_requests_open n cb base1 req1 s1 e1 base2 req2 s2 e2 base3 req3 s3 e3 :
  table_wf cb →
  attempt_fails reg net n base1 req1 →
  attempt_fails reg net n base2 req2 →
  attempt_fails reg net n base3 req3 →
  open_in
    (breakers (proxyRequest reg net n base3 req3 s3 e3
       (breakers (proxyRequest reg net n base2 req2 s2 e2
          (breakers (proxyRequest reg net n base1 req1 s1 e1 cb)))))) n.
Proof.
  intros Hwf0 Hf1 Hf2 Hf3.
  destruct (failing_request_progress n base1 req1 s1 e1 cb Hwf0 Hf1) as [Hwf1 H1].
  set (cb1 := breakers (proxyRequest reg net n base1 req1 s1 e1 cb)) in *.
  destruct (failing_request_progress n base2 req2 s2 e2 cb1 Hwf1 Hf2) as [Hwf2 H2].
  set (cb2 := breakers (proxyRequest reg net n base2 req2 s2 e2 cb1)) in *.
  destruct (failing_request_progress n base3 req3 s3 e3 cb2 Hwf2 Hf3) as [Hwf3 H3].
  destruct H3 as [H3|[H3 H3']]; [done|].
  destruct H2 as [H2|[H2 _]].
  { by apply failing_request_stays_open. }
  destruct H1 as [H1|[H1 _]].
  { apply failing_request_stays_open; [done..|].
    by apply failing_request_stays_open. }
  pose proof (fails_of_nonneg cb n Hwf0). unfold failureThreshold in *. lia.
Qed.

End FailingAttempts.

(** Three proxied requests to one target whose attempts all fail, for any
    mix of reasons (unknown to discovery, no answer, non-2xx answer), leave
    its breaker open whatever the earlier history of the gateway; a request
    arriving within the open duration of the recorded last failure is then
    answered 503 by the breaker and nothing is sent to the target. *)
Theorem three_failed_attempts_open_breaker :
  ∀ (reg : gmap string ServiceRecord) (net : network) (history : list op) (n : string)
    base1 req1 s1 e1 base2 req2 s2 e2 base3 req3 s3 e3,
    attempt_fails reg net n base1 req1 →
    attempt_fails reg net n base2 req2 →
    attempt_fails reg net n base3 req3 →
    let cb1 := breakers (proxyRequest reg net n base1 req1 s1 e1 (run initial history)) in
    let cb2 := breakers (proxyRequest reg net n base2 req2 s2 e2 cb1) in
    let cb3 := breakers (proxyRequest reg net n base3 req3 s3 e3 cb2) in
    ∃ b, cb3 !! n = Some b ∧ isOpen b = true
         ∧ ∀ base req t0 t1,
             t0 - lastFailureNum b ≤ openDuration →
             proxyRequest reg net n base req t0 t1 cb3
             = Outcome cb3 (Some (Response 503 (circuit_open_body n))) [].
Proof.
  intros reg net history n base1 req1 s1 e1 base2 req2 s2 e2 base3 req3 s3 e3
    Hf1 Hf2 Hf3. simpl.
  destruct (three_failing_requests_open reg net n (run initial history)
              base1 req1 s1 e1 base2 req2 s2 e2 base3 req3 s3 e3)
    as (b & Hb & Ho); try done.
  { apply reachable_wf. by exists history. }
  exists b. split; [done|]. split; [done|].
  intros base req t0 t1 Ht.
  apply proxyRequest_rejected. by apply (isCircuitOpen_within t0 n _ b).
Qed.

Lemma three_failed_attempts_open_breaker_witness :
  let px := proxyRequest Sample.registry Sample.net_404 "item-service" "/items" in
  let r1 := Sample.get "/api/items/a" None in
  let r2 := Sample.get "/api/items/b" None in
  let r3 := Sample.get "/api/items/c" None in
  let cb3 := breakers (px r3 30 31 (breakers (px r2 20 21 (breakers (px r1 10 11 initial))))) in
  ∃ b, cb3 !! "item-service" = Some b ∧ isOpen b = true
       ∧ ∀ base req t0 t1,
           t0 - lastFailureNum b ≤ openDuration →
           proxyRequest Sample.registry Sample.net_404 "item-service" base req t0 t1 cb3
           = Outcome cb3 (Some (Response 503 (circuit_open_body "item-service"))) [].
Proof.
  intros px r1 r2 r3.
  apply (three_failed_attempts_open_breaker Sample.registry Sample.net_404 []
           "item-service" "/items" r1 10 11 "/items" r2 20 21 "/items" r3 30 31);
    unfold attempt_fails; simpl; eexists; vm_compute; reflexivity.
Defined.

(** * Further properties of the aggregate endpoints *)

Lemma slot_not_nullish (r : option Js.value) :
  (∀ body, r = Some body → Js.nullish body = false) →
  ∃ v, slot r = Some v.
Proof.
  intros H. destruct r as [body|]; simpl; [|eauto].
  specialize (H body eq_refl). destruct body; simpl in *; eauto; discriminate.
Qed.

(** The dashboard does not fail fast.  An authenticated request issues
    exactly one request to each registered target -- list-service with the
    caller's header, item-service with none -- whatever the network does
    with either of them. *)
Theorem dashboard_calls_both_targets :
  ∀ (reg : gmap string ServiceRecord) (net : network) (req : incoming)
    (cb : gmap string breaker) (ls it : ServiceRecord),
    Js.truthy (header_Authorization req) = true →
    discover reg "list-service" = Some ls →
    discover reg "item-service" = Some it →
    trace (getDashboard reg net req cb)
    = [EvDiscover "list-service";
       EvHttp "list-service"
         (Request "GET" (url ls +:+ "/lists?limit=5") Js.Undefined
            [("Authorization", header_Authorization req)]);
       EvDiscover "item-service";
       EvHttp "item-service"
         (Request "GET" (url it +:+ "/items?limit=5") Js.Undefined [])].
Proof.
  intros reg net req cb ls it Ha Hl Hi.
  rewrite getDashboard_trace by done.
  unfold callService. rewrite Hl, Hi, Ha. simpl.
  by destruct (axios net _), (axios net _).
Qed.

Lemma dashboard_calls_both_targets_witness :
  trace (getDashboard Sample.registry Sample.net_down
           (Sample.get "/api/dashboard" (Some "Bearer abc")) initial)
  = [EvDiscover "list-service";
     EvHttp "list-service"
       (Request "GET" ("http://127.0.0.1:3002" +:+ "/lists?limit=5") Js.Undefined
          [("Authorization", Some "Bearer abc")]);
     EvDiscover "item-service";
     EvHttp "item-service"
       (Request "GET" ("http://127.0.0.1:3003" +:+ "/items?limit=5") Js.Undefined [])].
Proof.
  apply (dashboard_calls_both_targets Sample.registry Sample.net_down
           (Sample.get "/api/dashboard" (Some "Bearer abc")) initial
           (Sample.record "http://127.0.0.1:3002")
           (Sample.record "http://127.0.0.1:3003"));
    vm_compute; reflexivity.
Defined.

(** For an authenticated dashboard request the status is 200 in every
    combination of sub-call outcomes -- both failed, one failed, none failed
    -- as long as no fulfilled sub-call carries a [null] or [undefined]
    body; the breaker table is handed back unchanged. *)
Theorem dashboard_status_200 :
  ∀ (reg : gmap string ServiceRecord) (net : network) (req : incoming)
    (cb : gmap string breaker),
    Js.truthy (header_Authorization req) = true →
    (∀ body, fst (callService reg net "list-service" "/lists?limit=5"
                    (header_Authorization req)) = Some body →
             Js.nullish body = false) →
    (∀ body, fst (callService reg net "item-service" "/items?limit=5" None) = Some body →
             Js.nullish body = false) →
    res_status <$> replied (getDashboard reg net req cb) = Some 200
    ∧ breakers (getDashboard reg net req cb) = cb.
Proof.
  intros reg net req cb Ha Hl Hi.
  unfold getDashboard. rewrite Ha. simpl.
  destruct (callService reg net "list-service" _ _) as [r1 tr1].
  destruct (callService reg net "item-service" _ _) as [r2 tr2].
  simpl in Hl, Hi.
  destruct (slot_not_nullish r1 Hl) as [v1 ->].
  destruct (slot_not_nullish r2 Hi) as [v2 ->].
  done.
Qed.

Lemma dashboard_status_200_witness :
  res_status <$> replied (getDashboard Sample.registry Sample.net_down
                            (Sample.get "/api/dashboard" (Some "Bearer abc"))
                            Sample.item_breaker_open) = Some 200
  ∧ breakers (getDashboard Sample.registry Sample.net_down
                (Sample.get "/api/dashboard" (Some "Bearer abc"))
                Sample.item_breaker_open) = Sample.item_breaker_open.
Proof.
  apply (dashboard_status_200 Sample.registry Sample.net_down
           (Sample.get "/api/dashboard" (Some "Bearer abc")) Sample.item_breaker_open).
  - reflexivity.
  - intros body H. vm_compute in H. discriminate.
  - intros body H. vm_compute in H. discriminate.
Defined.

(** The dashboard gives no sign of degradation: if two networks treat the
    list-service call alike, and item-service fails on one while answering
    with an empty [data] list on the other, the two dashboard responses are
    equal. *)
Theorem dashboard_failure_looks_like_empty :
  ∀ (reg : gmap string ServiceRecord) (net1 net2 : network) (req : incoming)
    (cb : gmap string breaker) (body : Js.value),
    fst (callService reg net1 "list-service" "/lists?limit=5" (header_Authorization req))
    = fst (callService reg net2 "list-service" "/lists?limit=5" (header_Authorization req)) →
    fst (callService reg net1 "item-service" "/items?limit=5" None) = None →
    fst (callService reg net2 "item-service" "/items?limit=5" None) = Some body →
    Js.get_prop body "data" = Some (Js.Arr []) →
    replied (getDashboard reg net1 req cb) = replied (getDashboard reg net2 req cb).
Proof.
  intros reg net1 net2 req cb body Hl H1 H2 Hd.
  unfold getDashboard. destruct (negb _); [done|].
  destruct (callService reg net1 "list-service" _ _) as [l1 tl1].
  destruct (callService reg net2 "list-service" _ _) as [l2 tl2].
  destruct (callService reg net1 "item-service" _ _) as [i1 ti1].
  destruct (callService reg net2 "item-service" _ _) as [i2 ti2].
  simpl in *. subst l2 i1 i2. simpl. rewrite Hd.
  by destruct (slot l1).
Qed.

Lemma dashboard_failure_looks_like_empty_witness :
  replied (getDashboard Sample.registry Sample.net_items_down
             (Sample.get "/api/dashboard" (Some "Bearer abc")) initial)
  = replied (getDashboard Sample.registry Sample2.net_items_empty
               (Sample.get "/api/dashboard" (Some "Bearer abc")) initial).
Proof.
  apply (dashboard_failure_looks_like_empty Sample.registry Sample.net_items_down
           Sample2.net_items_empty (Sample.get "/api/dashboard" (Some "Bearer abc"))
           initial (Sample.envelope (Js.Arr []))); vm_compute; reflexivity.
Defined.



(** * Token validation across the services *)

Lemma strip_prefix_Some pat : ∀ s rest,
  Js.strip_prefix pat s = Some rest → s = pat +:+ rest.
Proof.
  induction pat as [|a pat IH]; intros s rest; simpl.
  - destruct s; by intros [= <-].
  - destruct s as [|b s]; [done|].
    destruct (Ascii.eqb_spec a b) as [->|]; [|done].
    intros H. by rewrite (IH _ _ H).
Qed.

Lemma field_omit_same k fs : Js.field k (Js.omit k fs) = Js.Undefined.
Proof.
  induction fs as [|[k' v] fs IH]; simpl; [done|].
  destruct (String.eqb k k') eqn:He; [done|]. simpl. by rewrite He.
Qed.

Lemma field_omit_other k k' fs :
  k ≠ k' → Js.field k' (Js.omit k fs) = Js.field k' fs.
Proof.
  intros Hne. induction fs as [|[k0 v] fs IH]; simpl; [done|].
  destruct (String.eqb_spec k k0) as [Hk|Hk].
  - subst k0. rewrite IH.
    destruct (String.eqb_spec k' k) as [Hk'|Hk']; [congruence | done].
  - simpl. by rewrite IH.
Qed.

(** [validateToken] answers 200 only for a token that verifies and whose
    [id] names a stored user; the user object it returns has no [password]
    property and keeps every other property of the stored document.  Every
    other request is answered 401 or 404 with [success: false]. *)
Theorem validate_token_hides_password :
  ∀ (verify : Js.value → option Js.value) (findById : Js.value → UserService.lookup)
    (body : Js.value),
    let r := UserService.validateToken verify findById body in
    (∃ token decoded id fs,
        Js.get_prop body "token" = Some token
        ∧ verify token = Some decoded
        ∧ Js.get_prop decoded "id" = Some id
        ∧ findById id = UserService.Found fs
        ∧ r = Response 200
                (Js.Obj [("success", Js.Bool true);
                         ("data", Js.Obj [("user", Js.Obj (Js.omit "password" fs))])])
        ∧ Js.field "password" (Js.omit "password" fs) = Js.Undefined
        ∧ ∀ k, k ≠ "password" → Js.field k (Js.omit "password" fs) = Js.field k fs)
    ∨ ((res_status r = 401 ∨ res_status r = 404)
       ∧ Js.get_prop (res_body r) "success" = Some (Js.Bool false)).
Proof.
  intros verify findById body. simpl. unfold UserService.validateToken.
  destruct (Js.get_prop body "token") as [token|]; [|right; by split; [left|]].
  destruct (verify token) as [decoded|] eqn:Hv; simpl;
    [|right; by split; [left|]].
  destruct (Js.get_prop decoded "id") as [id|] eqn:Hi; [|right; by split; [left|]].
  destruct (findById id) as [fs| |] eqn:Hf.
  - left. exists token, decoded, id, fs.
    repeat split; try done.
    + apply field_omit_same.
    + intros k Hk. apply field_omit_other. congruence.
  - right. by split; [right|].
  - right. by split; [left|].
Qed.

(** A request whose Authorization header is absent or does not begin with
    [Bearer ] is answered 401 by the middleware without discovery and
    without a call to the user service.  For a bearer header, whenever the
    user service is unknown to discovery, does not answer, or answers with a
    non-2xx status -- its own 401 for a bad token included -- the middleware
    answers 503 "authentication service unavailable". *)
Theorem auth_middleware_denials :
  ∀ (reg : gmap string ServiceRecord) (net : network) (h : option string),
    (h ≫= Js.strip_prefix "Bearer " = None →
     Auth.authMiddleware reg net h = (Auth.Denied Auth.token_required, []))
    ∧ (∀ token,
         h = Some ("Bearer " +:+ token) →
         match discover reg "user-service" with
         | None => True
         | Some us =>
             ∃ resp, axios net (Auth.validate_request us token) = Rejected resp
         end →
         fst (Auth.authMiddleware reg net h) = Auth.Denied Auth.auth_unavailable).
Proof.
  intros reg net h. split.
  - intros Hh. unfold Auth.authMiddleware. by rewrite Hh.
  - intros token -> Hfail. unfold Auth.authMiddleware. simpl default.
    change (Some ("Bearer " +:+ token) ≫= Js.strip_prefix "Bearer ")
      with (Js.strip_prefix "Bearer " ("Bearer " +:+ token)).
    rewrite strip_prefix_app, replace_prefix.
    change ("" +:+ token) with token.
    destruct (discover reg "user-service") as [us|]; [|done].
    destruct Hfail as [resp Hr]. cbv zeta. by rewrite Hr.
Qed.

Lemma auth_middleware_denials_witness :
  Auth.authMiddleware Sample.registry Sample2.user_wire (Some "Basic abc")
  = (Auth.Denied Auth.token_required, [])
  ∧ fst (Auth.authMiddleware Sample.registry Sample2.user_wire
           (Some ("Bearer " +:+ "expired")))
    = Auth.Denied Auth.auth_unavailable.
Proof.
  split.
  - apply (proj1 (auth_middleware_denials Sample.registry Sample2.user_wire
                    (Some "Basic abc"))).
    reflexivity.
  - apply (proj2 (auth_middleware_denials Sample.registry Sample2.user_wire
                    (Some ("Bearer " +:+ "expired"))) "expired" eq_refl).
    simpl. eexists. vm_compute. reflexivity.
Defined.

(** The middleware against the real user service.  When the validation
    request is answered by [validateToken], the middleware lets a request
    pass exactly when the token verifies and names a stored user, and
    [req.user] is then that user without the [password] property; a token
    that does not verify, or whose user is gone, is answered 503, and the 401
    "Token inválido" of the middleware is never sent. *)
Theorem auth_against_user_service :
  ∀ (reg : gmap string ServiceRecord) (net : network)
    (verify : Js.value → option Js.value) (findById : Js.value → UserService.lookup)
    (us : ServiceRecord) (h : option string),
    discover reg "user-service" = Some us →
    (∀ token,
       net (Auth.validate_request us token)
       = UserService.on_wire
           (UserService.validateToken verify findById
              (Js.Obj [("token", Js.Str token)]))) →
    fst (Auth.authMiddleware reg net h)
    = match h ≫= Js.strip_prefix "Bearer " with
      | None => Auth.Denied Auth.token_required
      | Some token =>
          match verify (Js.Str token) ≫= (λ decoded, Js.get_prop decoded "id") with
          | None => Auth.Denied Auth.auth_unavailable
          | Some id =>
              match findById id with
              | UserService.Found fs => Auth.Next (Js.Obj (Js.omit "password" fs))
              | _ => Auth.Denied Auth.auth_unavailable
              end
          end
      end.
Proof.
  intros reg net verify findById us h Hd Hnet.
  unfold Auth.authMiddleware.
  destruct h as [s|]; [|done].
  change (Some s ≫= Js.strip_prefix "Bearer ") with (Js.strip_prefix "Bearer " s).
  destruct (Js.strip_prefix "Bearer " s) as [token|] eqn:Hs; [|done].
  apply strip_prefix_Some in Hs. subst s. simpl default.
  rewrite Hd, replace_prefix. change ("" +:+ token) with token. cbv zeta.
  unfold axios. rewrite Hnet.
  unfold UserService.validateToken.
  change (Js.get_prop (Js.Obj [("token", Js.Str token)]) "token")
    with (Some (Js.Str token)).
  cbv iota beta.
  destruct (verify (Js.Str token)) as [decoded|]; simpl; [|done].
  destruct (Js.get_prop decoded "id") as [id|]; [|done].
  by destruct (findById id).
Qed.

Lemma auth_against_user_service_witness :
  fst (Auth.authMiddleware Sample.registry Sample2.user_wire (Some "Bearer good"))
  = Auth.Next (Js.Obj (Js.omit "password" Sample2.alice))
  ∧ fst (Auth.authMiddleware Sample.registry Sample2.user_wire (Some "Bearer forged"))
    = Auth.Denied Auth.auth_unavailable.
Proof.
  split.
  - apply (auth_against_user_service Sample.registry Sample2.user_wire
             Sample2.verify Sample2.findById (Sample.record "http://127.0.0.1:3001")
             (Some "Bearer good")); reflexivity.
  - apply (auth_against_user_service Sample.registry Sample2.user_wire
             Sample2.verify Sample2.findById (Sample.record "http://127.0.0.1:3001")
             (Some "Bearer forged")); reflexivity.
Defined.

Lemma unauthenticated_attempt_fails reg reg' net net' service base req :
  discover reg "list-service" = Some service →
  guarded_by_auth reg' net' net service base →
  header_Authorization req ≫= Js.strip_prefix "Bearer " = None →
  attempt_fails reg net "list-service" base req
  ∧ axios net (proxied_request service base req)
    = Rejected (Some (401, failure_body (Js.Str "Token obrigatório"))).
Proof.
  intros Hd Hg Hh.
  assert (Hn : net (proxied_request service base req)
               = Some (401, failure_body (Js.Str "Token obrigatório"))).
  { apply (Hg req Auth.token_required). unfold Auth.authMiddleware. by rewrite Hh. }
  assert (Ha : axios net (proxied_request service base req)
               = Rejected (Some (401, failure_body (Js.Str "Token obrigatório")))).
  { unfold axios. by rewrite Hn. }
  split; [|done]. unfold attempt_fails. rewrite Hd. eauto.
Qed.

(** Gateway in front of list-service.  A request to [/api/lists] without a
    bearer token is forwarded, list-service's middleware answers 401, and the
    gateway hands that 401 to the caller and counts it as a failure of
    list-service.  Hence three such requests open the list-service breaker,
    and for the next 30 seconds every request to list-service, also one with
    a valid token, is answered 503 by the gateway and never reaches it. *)
Theorem unauthenticated_requests_open_list_breaker :
  ∀ (reg reg' : gmap string ServiceRecord) (net net' : network)
    (service : ServiceRecord) (history : list op)
    req1 s1 e1 req2 s2 e2 req3 s3 e3,
    discover reg "list-service" = Some service →
    guarded_by_auth reg' net' net service "/lists" →
    header_Authorization req1 ≫= Js.strip_prefix "Bearer " = None →
    header_Authorization req2 ≫= Js.strip_prefix "Bearer " = None →
    header_Authorization req3 ≫= Js.strip_prefix "Bearer " = None →
    let px := proxyRequest reg net "list-service" "/lists" in
    let cb1 := breakers (px req1 s1 e1 (run initial history)) in
    let cb2 := breakers (px req2 s2 e2 cb1) in
    let cb3 := breakers (px req3 s3 e3 cb2) in
    (∀ req t0 t1 cb,
       header_Authorization req ≫= Js.strip_prefix "Bearer " = None →
       fst (isCircuitOpen t0 "list-service" cb) = false →
       replied (px req t0 t1 cb)
       = Some (Response 401 (failure_body (Js.Str "Token obrigatório"))))
    ∧ ∃ b, cb3 !! "list-service" = Some b ∧ isOpen b = true
           ∧ ∀ req t0 t1,
               t0 - lastFailureNum b ≤ openDuration →
               px req t0 t1 cb3
               = Outcome cb3 (Some (Response 503 (circuit_open_body "list-service"))) [].
Proof.
  intros reg reg' net net' service history req1 s1 e1 req2 s2 e2 req3 s3 e3
    Hd Hg H1 H2 H3. simpl. split.
  - intros req t0 t1 cb Hh Hc.
    destruct (unauthenticated_attempt_fails reg reg' net net' service "/lists" req
                Hd Hg Hh) as [_ Ha].
    unfold proxyRequest.
    destruct (isCircuitOpen t0 "list-service" cb) as [o cb0]. simpl in Hc. subst o.
    rewrite Hd, Ha. done.
  - destruct (three_failing_requests_open reg net "list-service" (run initial history)
                "/lists" req1 s1 e1 "/lists" req2 s2 e2 "/lists" req3 s3 e3)
      as (b & Hb & Ho).
    { apply reachable_wf. by exists history. }
    { by apply (unauthenticated_attempt_fails reg reg' net net' service). }
    { by apply (unauthenticated_attempt_fails reg reg' net net' service). }
    { by apply (unauthenticated_attempt_fails reg reg' net net' service). }
    exists b. split; [done|]. split; [done|].
    intros req t0 t1 Ht.
    apply proxyRequest_rejected. by apply (isCircuitOpen_within t0 "list-service" _ b).
Qed.

Lemma unauthenticated_requests_open_list_breaker_witness :
  let px := proxyRequest Sample.registry Sample2.list_wire "list-service" "/lists" in
  let anon := Sample.get "/api/lists" None in
  let cb3 := breakers (px anon 30 31 (breakers (px anon 20 21
                (breakers (px anon 10 11 initial))))) in
  replied (px anon 10 11 initial)
  = Some (Response 401 (failure_body (Js.Str "Token obrigatório")))
  ∧ px (Sample.get "/api/lists" (Some "Bearer good")) 1000 1001 cb3
    = Outcome cb3 (Some (Response 503 (circuit_open_body "list-service"))) [].
Proof.
  intros px anon cb3.
  destruct (unauthenticated_requests_open_list_breaker
              Sample.registry Sample.registry Sample2.list_wire Sample2.user_wire
              (Sample.record "http://127.0.0.1:3002") []
              anon 10 11 anon 20 21 anon 30 31) as [H401 (b & Hb & _ & Hrej)];
    try reflexivity.
  { intros req r Hden. unfold Sample2.list_wire, proxied_request. cbn [headers].
    by rewrite Hden. }
  split; [by apply H401|].
  assert (Hcb : cb3 !! "list-service" = Some (Breaker 3 true (Some 31)))
    by (vm_compute; reflexivity).
  assert (Hb' : cb3 !! "list-service" = Some b) by exact Hb.
  rewrite Hcb in Hb'. injection Hb' as <-.
  apply Hrej. vm_compute. discriminate.
Defined.

(** * Access control of the profile and list routes *)

Lemma strict_eq_Str v s : Js.strict_eq v (Js.Str s) = true → v = Js.Str s.
Proof.
  destruct v; simpl; try discriminate.
  intros H. apply String.eqb_eq in H. by subst.
Qed.

Lemma user_auth_Next verify h user :
  UserRoutes.authMiddleware verify h = Auth.Next user →
  ∃ token, h = Some ("Bearer " +:+ token) ∧ verify (Js.Str token) = Some user.
Proof.
  unfold UserRoutes.authMiddleware. destruct h as [s|]; [|done].
  change (Some s ≫= Js.strip_prefix "Bearer ") with (Js.strip_prefix "Bearer " s).
  destruct (Js.strip_prefix "Bearer " s) as [token|] eqn:Hs; [|done].
  apply strip_prefix_Some in Hs. subst s. simpl default.
  rewrite replace_prefix. change ("" +:+ token) with token.
  destruct (verify (Js.Str token)) as [decoded|] eqn:Hv; [|done].
  intros [= <-]. eauto.
Qed.

(** [GET /users/:id] answers 200 only to a bearer token that verifies and
    whose [id] is the string [:id]; the body is then the stored user without
    its [password] property.  A verified token with any other [id] gets 403
    and the database is not read. *)
Theorem profile_read_only_by_owner :
  ∀ (verify : Js.value → option Js.value) (findById : Js.value → UserService.lookup)
    (h : option string) (id : string),
    (∀ body tr,
       UserRoutes.get_route verify findById h id = (Some (Response 200 body), tr) →
       ∃ token decoded fs,
         h = Some ("Bearer " +:+ token)
         ∧ verify (Js.Str token) = Some decoded
         ∧ Js.get_prop decoded "id" = Some (Js.Str id)
         ∧ findById (Js.Str id) = UserService.Found fs
         ∧ body = Js.Obj [("success", Js.Bool true);
                          ("data", Js.Obj (Js.omit "password" fs))]
         ∧ Js.field "password" (Js.omit "password" fs) = Js.Undefined)
    ∧ (∀ token decoded uid,
         h = Some ("Bearer " +:+ token) →
         verify (Js.Str token) = Some decoded →
         Js.get_prop decoded "id" = Some uid →
         uid ≠ Js.Str id →
         UserRoutes.get_route verify findById h id
         = (Some UserRoutes.access_denied, [])).
Proof.
  intros verify findById h id. split.
  - intros body tr. unfold UserRoutes.get_route.
    destruct (UserRoutes.authMiddleware verify h) as [r|user] eqn:Ha.
    + intros [= Hr _]. subst r.
      unfold UserRoutes.authMiddleware in Ha.
      destruct (h ≫= _); [destruct (verify _)|]; discriminate.
    + apply user_auth_Next in Ha as (token & -> & Hv).
      unfold UserRoutes.getUser.
      destruct (Js.get_prop user "id") as [uid|] eqn:Hid; [|done].
      destruct (Js.strict_eq uid (Js.Str id)) eqn:He; simpl; [|done].
      apply strict_eq_Str in He. subst uid.
      destruct (findById (Js.Str id)) as [fs| |] eqn:Hf; try done.
      intros [= <- _]. exists token, user, fs.
      repeat split; try done. apply field_omit_same.
  - intros token decoded uid -> Hv Hid Hne.
    unfold UserRoutes.get_route, UserRoutes.authMiddleware. simpl default.
    change (Some ("Bearer " +:+ token) ≫= Js.strip_prefix "Bearer ")
      with (Js.strip_prefix "Bearer " ("Bearer " +:+ token)).
    rewrite strip_prefix_app, replace_prefix. change ("" +:+ token) with token.
    cbv zeta. rewrite Hv. unfold UserRoutes.getUser. rewrite Hid.
    destruct (Js.strict_eq uid (Js.Str id)) eqn:He; [|done].
    apply strict_eq_Str in He. done.
Qed.

Lemma profile_read_only_by_owner_witness :
  UserRoutes.get_route Sample3.verify Sample3.users (Some ("Bearer " +:+ "bob")) "u1"
  = (Some UserRoutes.access_denied, []).
Proof.
  apply (proj2 (profile_read_only_by_owner Sample3.verify Sample3.users
                  (Some ("Bearer " +:+ "bob")) "u1")
           "bob" Sample3.bob_token (Js.Str "u2")); try reflexivity.
  discriminate.
Defined.

(** [PUT /users/:id] writes to the database only for a bearer token that
    verifies and whose [id] is [:id], only the record [:id], and only the
    three properties [firstName], [lastName] and [preferences], whatever else
    the request body contains. *)
Theorem profile_update_own_record_three_fields :
  ∀ (verify : Js.value → option Js.value)
    (update : string → Js.value → UserService.lookup)
    (h : option string) (id : string) (body : Js.value) (i : string) (u : Js.value),
    UserRoutes.DbUpdate i u ∈ snd (UserRoutes.put_route verify update h id body) →
    i = id
    ∧ (∃ token decoded,
         h = Some ("Bearer " +:+ token)
         ∧ verify (Js.Str token) = Some decoded
         ∧ Js.get_prop decoded "id" = Some (Js.Str id))
    ∧ u = Js.Obj [("firstName", Js.field "firstName" (Js.own_fields body));
                  ("lastName", Js.field "lastName" (Js.own_fields body));
                  ("preferences", Js.field "preferences" (Js.own_fields body))].
Proof.
  intros verify update h id body i u. unfold UserRoutes.put_route.
  destruct (UserRoutes.authMiddleware verify h) as [r|user] eqn:Ha; simpl.
  { intros H. by apply elem_of_nil in H. }
  apply user_auth_Next in Ha as (token & -> & Hv).
  unfold UserRoutes.updateUser.
  destruct (Js.get_prop user "id") as [uid|] eqn:Hid; simpl;
    [|intros H; by apply elem_of_nil in H].
  destruct (Js.strict_eq uid (Js.Str id)) eqn:He; simpl;
    [|intros H; by apply elem_of_nil in H].
  apply strict_eq_Str in He. subst uid.
  assert (Hfield : ∀ k v, Js.get_prop body k = Some v →
            v = Js.field k (Js.own_fields body)).
  { intros k v. destruct body; simpl; by intros [= <-]. }
  destruct (Js.get_prop body "firstName") as [f|] eqn:Hf; simpl;
    [|intros H; by apply elem_of_nil in H].
  destruct (Js.get_prop body "lastName") as [l|] eqn:Hl; simpl;
    [|intros H; by apply elem_of_nil in H].
  destruct (Js.get_prop body "preferences") as [p|] eqn:Hp; simpl;
    [|intros H; by apply elem_of_nil in H].
  apply Hfield in Hf, Hl, Hp. subst f l p.
  destruct (update id _); simpl; intros H;
    apply list_elem_of_singleton in H; injection H as -> ->;
    (split; [done|]; split; [eauto|done]).
Qed.

Lemma profile_update_own_record_three_fields_witness :
  let body := Js.Obj [("firstName", Js.Str "Bob"); ("password", Js.Str "x");
                      ("email", Js.Str "evil@example.com")] in
  let u := Js.Obj [("firstName", Js.Str "Bob"); ("lastName", Js.Undefined);
                   ("preferences", Js.Undefined)] in
  u = Js.Obj [("firstName", Js.field "firstName" (Js.own_fields body));
              ("lastName", Js.field "lastName" (Js.own_fields body));
              ("preferences", Js.field "preferences" (Js.own_fields body))].
Proof.
  intros body u.
  apply (profile_update_own_record_three_fields Sample3.verify Sample3.user_update
           (Some ("Bearer " +:+ "bob")) "u2" body "u2" u).
  vm_compute. apply list_elem_of_singleton. reflexivity.
Defined.

Section ListFacts.

Context (findById : string → option Js.value).

Lemma guard_inr user id list :
  ListRoutes.guard findById user id = inr list → ListRoutes.owns findById user id.
Proof.
  unfold ListRoutes.guard, ListRoutes.owns, ListRoutes.foreign.
  destruct (findById id) as [l|]; [|done].
  destruct (Js.truthy_value l) eqn:Ht; simpl; [|done].
  destruct (Js.get_prop l "userId") as [owner|] eqn:Ho; [|done].
  destruct (Js.get_prop user "id") as [uid|]; [|done].
  destruct (Js.strict_eq owner uid) eqn:He; simpl; [|done].
  intros _. exists l, owner, uid. by repeat split.
Qed.

Lemma guard_inl user id r tr :
  ListRoutes.guard findById user id = inl (r, tr) →
  tr = [ListRoutes.DbFind id] ∧ ∀ resp, r = Some resp → res_status resp = 404.
Proof.
  unfold ListRoutes.guard.
  destruct (findById id) as [l|]; [|by intros [= <- <-]].
  destruct (negb (Js.truthy_value l)).
  { intros [= <- <-]. split; [done|]. by intros ? [= <-]. }
  destruct (ListRoutes.foreign l user) as [[|]|]; try done.
  - intros [= <- <-]. split; [done|]. by intros ? [= <-].
  - by intros [= <- <-].
Qed.

End ListFacts.

(** The list routes serve the owner only.  [getListById], [getListSummary],
    [updateList] and [deleteList] answer with a 2xx status only if the stored
    list exists and its [userId] is strictly equal to the [id] of the
    authenticated user; and [updateList] and [deleteList] reach the
    database's update or delete only in that case. *)
Theorem list_routes_owner_only :
  ∀ (findById : string → option Js.value)
    (update : string → Js.value → option Js.value) (delete : string → bool)
    (user : Js.value) (id : string) (body : Js.value),
    (∀ r tr,
       ListRoutes.getListById findById user id = (Some r, tr)
       ∨ ListRoutes.getListSummary findById user id = (Some r, tr)
       ∨ ListRoutes.updateList findById update user id body = (Some r, tr)
       ∨ ListRoutes.deleteList findById delete user id = (Some r, tr) →
       ListRoutes.success r →
       ListRoutes.owns findById user id)
    ∧ (∀ e,
         e ∈ snd (ListRoutes.updateList findById update user id body)
         ∨ e ∈ snd (ListRoutes.deleteList findById delete user id) →
         ListRoutes.is_write e = true →
         ListRoutes.owns findById user id).
Proof.
  intros findById update delete user id body.
  assert (Hguard : ∀ (k : Js.value → option response * list ListRoutes.db_event) r tr,
            match ListRoutes.guard findById user id with
            | inl x => x
            | inr l => k l
            end = (Some r, tr) →
            ListRoutes.success r → ListRoutes.owns findById user id).
  { intros k r tr. destruct (ListRoutes.guard findById user id) as [[r' tr']|l] eqn:Hg.
    - intros [= -> ->] Hs. apply guard_inl in Hg as [_ H404].
      specialize (H404 r eq_refl). unfold ListRoutes.success in Hs. lia.
    - intros _ _. by apply (guard_inr findById user id l). }
  split.
  - intros r tr [H|[H|[H|H]]] Hs.
    + unfold ListRoutes.getListById in H. unfold ListRoutes.owns, ListRoutes.foreign in *.
      destruct (findById id) as [l|]; [|done].
      destruct (Js.truthy_value l) eqn:Ht; simpl in H.
      2:{ injection H as <- _. unfold ListRoutes.success in Hs. simpl in Hs. lia. }
      destruct (Js.get_prop l "userId") as [owner|] eqn:Ho; [|done].
      destruct (Js.get_prop user "id") as [uid|]; [|done].
      destruct (Js.strict_eq owner uid) eqn:He; simpl in H.
      * exists l, owner, uid. by repeat split.
      * injection H as <- _. unfold ListRoutes.success in Hs. simpl in Hs. lia.
    + by apply (Hguard _ r tr H).
    + by apply (Hguard _ r tr H).
    + by apply (Hguard _ r tr H).
  - assert (Hw : ∀ (k : Js.value → option response * list ListRoutes.db_event) e,
              e ∈ snd (match ListRoutes.guard findById user id with
                       | inl x => x
                       | inr l => k l
                       end) →
              ListRoutes.is_write e = true → ListRoutes.owns findById user id).
    { intros k e. destruct (ListRoutes.guard findById user id) as [[r' tr']|l] eqn:Hg.
      - apply guard_inl in Hg as [-> _]. simpl. intros He.
        apply list_elem_of_singleton in He. by subst e.
      - intros _ _. by apply (guard_inr findById user id l). }
    intros e [He|He] Hwr; by apply (Hw _ e He).
Qed.

Lemma list_routes_owner_only_witness :
  ListRoutes.owns Sample3.lists Sample3.alice_user "l1".
Proof.
  apply (proj1 (list_routes_owner_only Sample3.lists Sample3.update_ok (λ _, true)
                  Sample3.alice_user "l1" (Js.Obj []))
           (ListRoutes.ok Sample3.alice_list) [ListRoutes.DbFind "l1"]).
  - left. vm_compute. reflexivity.
  - unfold ListRoutes.success. simpl. lia.
Defined.

(** What a user who is not the owner sees: [getListById] tells them the
    list exists (403), while [updateList], [deleteList] and [getListSummary]
    answer exactly as for a list that does not exist (the same 404), and the
    database is only read. *)
Theorem foreign_list_responses :
  ∀ (findById : string → option Js.value)
    (update : string → Js.value → option Js.value) (delete : string → bool)
    (user list : Js.value) (id : string) (body : Js.value),
    findById id = Some list →
    Js.truthy_value list = true →
    ListRoutes.foreign list user = Some true →
    ListRoutes.getListById findById user id
    = (Some ListRoutes.access_denied, [ListRoutes.DbFind id])
    ∧ ListRoutes.updateList findById update user id body
      = (Some ListRoutes.not_found_or_denied, [ListRoutes.DbFind id])
    ∧ ListRoutes.deleteList findById delete user id
      = (Some ListRoutes.not_found_or_denied, [ListRoutes.DbFind id])
    ∧ ListRoutes.getListSummary findById user id
      = (Some ListRoutes.not_found_or_denied, [ListRoutes.DbFind id])
    ∧ ∀ missing, Js.truthy_value missing = false →
        ListRoutes.guard (λ _, Some missing) user id
        = ListRoutes.guard findById user id.
Proof.
  intros findById update delete user list id body Hf Ht Hfo.
  assert (Hg : ListRoutes.guard findById user id
               = inl (Some ListRoutes.not_found_or_denied, [ListRoutes.DbFind id])).
  { unfold ListRoutes.guard. by rewrite Hf, Ht, Hfo. }
  unfold ListRoutes.updateList, ListRoutes.deleteList, ListRoutes.getListSummary.
  rewrite Hg. repeat split; try done.
  - unfold ListRoutes.getListById. by rewrite Hf, Ht, Hfo.
  - intros missing Hm. unfold ListRoutes.guard. by rewrite Hm.
Qed.

Lemma foreign_list_responses_witness :
  ListRoutes.getListById Sample3.lists Sample3.bob_user "l1"
  = (Some ListRoutes.access_denied, [ListRoutes.DbFind "l1"])
  ∧ ListRoutes.deleteList Sample3.lists (λ _, true) Sample3.bob_user "l1"
    = (Some ListRoutes.not_found_or_denied, [ListRoutes.DbFind "l1"]).
Proof.
  destruct (foreign_list_responses Sample3.lists Sample3.update_ok (λ _, true)
              Sample3.bob_user Sample3.alice_list "l1" (Js.Obj []))
    as (H1 & _ & H3 & _); try reflexivity.
  by split.
Defined.
